(** * terminal-temps: the forecast normalizer and the ASCII chart renderer

    A shallow embedding of [src/index.ts]: the text decorations [bold] and
    [cyan], the three chart renderers, the report composer [render] and the
    Dark Sky normalizer [transformDarkSkyForecast], followed by the
    properties of the program that the specification states.

    Conventions of the embedding.
    - A JavaScript [number] is an exact rational, NaN or one of the two
      infinities.  The rounding error of IEEE doubles is not modelled, and
      neither is the sign of zero: the program never divides by a negative
      zero (its only divisor is [max - min], which is [+0] when it is zero),
      and [ToString], [===] and [>=] do not tell the two zeros apart.
    - [Math.round] always yields an integer, NaN or an infinity; its result
      type [integral] records that, and [ToString] is only needed there
      (every interpolated number of the program is a [Math.round] result or a
      loop counter).  [ToString] writes an integer in decimal digits; the
      exponent notation that JavaScript uses from 10^21 on is not modelled.
    - A string is a sequence of 8-bit characters.
    - An exception is a value of [error]; code that can throw lives in the
      monad [except]. *)

From Stdlib Require Import ZArith QArith Qround Bool List String Ascii Lia.
From Stdlib Require Import DecimalString.
From Equations Require Import Equations.
Import ListNotations.

Close Scope Q_scope.
Local Open Scope string_scope.

(** * JavaScript primitives used by the program *)

Module JS.

(** *** Exceptions *)

Inductive error : Type := TypeError | RangeError.

Inductive except (A : Type) : Type :=
| Ok (a : A)
| Throw (e : error).
Arguments Ok {A} a.
Arguments Throw {A} e.

Definition bind {A B : Type} (c : except A) (k : A -> except B) : except B :=
  match c with
  | Ok a => k a
  | Throw e => Throw e
  end.

Fixpoint mapM {A B : Type} (f : A -> except B) (l : list A) : except (list B) :=
  match l with
  | [] => Ok []
  | x :: xs =>
      bind (f x) (fun y => bind (mapM f xs) (fun ys => Ok (y :: ys)))
  end.

(** *** Numbers *)

Inductive ext (A : Type) : Type :=
| NaN
| PosInfinity
| NegInfinity
| Fin (a : A).
Arguments NaN {A}.
Arguments PosInfinity {A}.
Arguments NegInfinity {A}.
Arguments Fin {A} a.

Definition number : Type := ext Q.
Definition integral : Type := ext Z.

Definition of_Z (z : Z) : number := Fin (inject_Z z).

(** [a - b] *)
Definition sub (a b : number) : number :=
  match a, b with
  | NaN, _ | _, NaN => NaN
  | PosInfinity, PosInfinity => NaN
  | NegInfinity, NegInfinity => NaN
  | PosInfinity, _ => PosInfinity
  | NegInfinity, _ => NegInfinity
  | Fin _, PosInfinity => NegInfinity
  | Fin _, NegInfinity => PosInfinity
  | Fin x, Fin y => Fin (x - y)%Q
  end.

(** The infinity of the sign of [c], and NaN for [Eq]. *)
Definition signed_infinity (c : comparison) : number :=
  match c with
  | Gt => PosInfinity
  | Lt => NegInfinity
  | Eq => NaN
  end.

(** [a * b] *)
Definition mul (a b : number) : number :=
  match a, b with
  | NaN, _ | _, NaN => NaN
  | PosInfinity, PosInfinity => PosInfinity
  | NegInfinity, NegInfinity => PosInfinity
  | PosInfinity, NegInfinity => NegInfinity
  | NegInfinity, PosInfinity => NegInfinity
  | PosInfinity, Fin y => signed_infinity (y ?= 0)%Q
  | Fin x, PosInfinity => signed_infinity (x ?= 0)%Q
  | NegInfinity, Fin y => signed_infinity (0 ?= y)%Q
  | Fin x, NegInfinity => signed_infinity (0 ?= x)%Q
  | Fin x, Fin y => Fin (x * y)%Q
  end.

(** [a / b]; a zero divisor is the positive zero. *)
Definition div (a b : number) : number :=
  match a, b with
  | NaN, _ | _, NaN => NaN
  | (PosInfinity | NegInfinity), (PosInfinity | NegInfinity) => NaN
  | PosInfinity, Fin y => if Qle_bool 0%Q y then PosInfinity else NegInfinity
  | NegInfinity, Fin y => if Qle_bool 0%Q y then NegInfinity else PosInfinity
  | Fin _, (PosInfinity | NegInfinity) => Fin 0%Q
  | Fin x, Fin y =>
      if Qeq_bool y 0%Q then signed_infinity (x ?= 0)%Q else Fin (x / y)%Q
  end.

(** [a === 0] *)
Definition is_zero (a : number) : bool :=
  match a with
  | Fin x => Qeq_bool x 0%Q
  | _ => false
  end.

(** [a > b] *)
Definition gt (a b : number) : bool :=
  match a, b with
  | NaN, _ | _, NaN => false
  | PosInfinity, PosInfinity => false
  | PosInfinity, _ => true
  | _, PosInfinity => false
  | NegInfinity, _ => false
  | Fin _, NegInfinity => true
  | Fin x, Fin y => negb (Qle_bool x y)
  end.

Definition is_NaN {A : Type} (a : ext A) : bool :=
  match a with
  | NaN => true
  | _ => false
  end.

(** [Math.max(...l)]: NaN when an argument is NaN, otherwise the largest
    argument, starting from [-Infinity]. *)
Fixpoint max_from (highest : number) (l : list number) : number :=
  match l with
  | [] => highest
  | x :: xs =>
      if is_NaN x then NaN
      else max_from (if gt x highest then x else highest) xs
  end.

Definition Math_max (l : list number) : number := max_from NegInfinity l.

(** [Math.min(...l)], starting from [+Infinity]. *)
Fixpoint min_from (lowest : number) (l : list number) : number :=
  match l with
  | [] => lowest
  | x :: xs =>
      if is_NaN x then NaN
      else min_from (if gt lowest x then x else lowest) xs
  end.

Definition Math_min (l : list number) : number := min_from PosInfinity l.

(** [Math.round(a)]: the integer nearest to [a], a tie going up, which is
    [floor(a + 1/2)]. *)
Definition Math_round (a : number) : integral :=
  match a with
  | NaN => NaN
  | PosInfinity => PosInfinity
  | NegInfinity => NegInfinity
  | Fin x => Fin (Qfloor (x + (1 # 2))%Q)
  end.

(** [a >= i] and [a === i] for an integral [a] and an integer [i]. *)
Definition ge_int (a : integral) (i : Z) : bool :=
  match a with
  | NaN | NegInfinity => false
  | PosInfinity => true
  | Fin z => (i <=? z)%Z
  end.

Definition eq_int (a : integral) (i : Z) : bool :=
  match a with
  | Fin z => (z =? i)%Z
  | _ => false
  end.

(** *** Strings *)

Definition nl : string := String "010" EmptyString.
Definition esc : string := String "027" EmptyString.
Definition dquote : string := String "034" EmptyString.

(** [ToString] of an integral number, as a template literal applies it. *)
Definition ToString (a : integral) : string :=
  match a with
  | NaN => "NaN"
  | PosInfinity => "Infinity"
  | NegInfinity => "-Infinity"
  | Fin z => NilZero.string_of_int (Z.to_int z)
  end.

Fixpoint take (n : nat) (s : string) : string :=
  match n, s with
  | S k, String c s' => String c (take k s')
  | _, _ => EmptyString
  end.

Fixpoint drop (n : nat) (s : string) : string :=
  match n, s with
  | S k, String _ s' => drop k s'
  | _, _ => s
  end.

(** A relative index of [slice]: negative counts from the end, and the
    result is clamped to [0 .. len]. *)
Definition relative_index (len : nat) (k : Z) : nat :=
  if (k <? 0)%Z then Z.to_nat (Z.max (Z.of_nat len + k) 0)
  else Nat.min (Z.to_nat k) len.

(** [s.slice(start, end)]; [None] is an omitted [end]. *)
Definition slice (s : string) (start : Z) (end_ : option Z) : string :=
  let len := String.length s in
  let from := relative_index len start in
  let to := match end_ with
            | None => len
            | Some e => relative_index len e
            end in
  take (to - from) (drop from s).

Fixpoint repeat_string (s : string) (n : nat) : string :=
  match n with
  | O => EmptyString
  | S k => s ++ repeat_string s k
  end.

(** [s.repeat(count)] throws a RangeError for a negative count. *)
Definition repeat (s : string) (count : Z) : except string :=
  if (count <? 0)%Z then Throw RangeError
  else Ok (repeat_string s (Z.to_nat count)).

(** [l.join(sep)] for an array of strings. *)
Definition join (sep : string) (l : list string) : string :=
  String.concat sep l.

End JS.

Import JS.

Notation "x <- c ;; k" := (bind c (fun x => k))
  (at level 61, c at next level, right associativity).

(** * The program *)

(** ** Data model *)

Module HourlyForecast.
Record t : Type := mk {
  temperature : number;
  feels_like : number;
  precipitation_probability : number
}.
End HourlyForecast.

Module Forecast.
Record t : Type := mk {
  alerts : list string;
  temperature : number;
  feels_like : number;
  current_summary : string;
  future_summary : string;
  hourly : list HourlyForecast.t
}.
End Forecast.

Inductive Format : Type := html | tty.

(** ** Text decoration *)

Definition bold (s : string) (format : Format) : string :=
  match format with
  | html => "<strong>" ++ s ++ "</strong>"
  | tty => esc ++ "[1m" ++ s ++ esc ++ "[0m"
  end.

Definition cyan (s : string) (format : Format) : string :=
  match format with
  | html => "<span style=" ++ dquote ++ "color: teal" ++ dquote ++ ">" ++ s ++ "</span>"
  | tty => esc ++ "[36m" ++ s ++ esc ++ "[0m"
  end.

(** ** The chart renderers *)

Definition PREFIX : string := repeat_string " " 9.
Definition PREFIX_LEN : Z := Z.of_nat (String.length PREFIX).

(** The values of [i] in [for (let i = from; i < from + n; i += 1)]. *)
Fixpoint count_up (from : Z) (n : nat) : list Z :=
  match n with
  | O => []
  | S k => from :: count_up (from + 1) k
  end.

(** The values of [i] in [for (let i = n; i; i -= 1)]. *)
Fixpoint count_down (n : nat) : list Z :=
  match n with
  | O => []
  | S k => Z.of_nat (S k) :: count_down k
  end.

(** [scaled.map(p => p >= i ? '**' : '  ').join('')] *)
Definition markers (scaled : list integral) (i : Z) : string :=
  join EmptyString (map (fun p => if ge_int p i then "**" else "  ") scaled).

Module Precipitation.

Definition graphHeight : nat := 5.

Definition scalePrecipitation (precipitationProbability : number) : integral :=
  Math_round (mul precipitationProbability (of_Z (Z.of_nat graphHeight))).

(** The label of the row that reaches the maximum probability. *)
Definition label (maxPrecipProbability : number) : string :=
  slice ("    R " ++ ToString (Math_round (mul maxPrecipProbability (of_Z 100))) ++ "%  ")
        (- PREFIX_LEN) None.

(** The row that iteration [i] of the loop pushes. *)
Definition row (forecast : Forecast.t) (format : Format) (i : Z) : string :=
  let precipProbabilities :=
    map HourlyForecast.precipitation_probability (Forecast.hourly forecast) in
  let scaledPrecips := map scalePrecipitation precipProbabilities in
  let maxPrecipProbability := Math_max precipProbabilities in
  let prefix :=
    if eq_int (scalePrecipitation maxPrecipProbability) i
    then cyan (bold (label maxPrecipProbability) format) format
    else PREFIX in
  prefix ++ cyan (markers scaledPrecips i) format.

(** The array [result] after the loop. *)
Definition rows (forecast : Forecast.t) (format : Format) : list string :=
  map (row forecast format) (count_up 1 graphHeight).

End Precipitation.

Definition renderPrecipitationGraph (forecast : Forecast.t) (format : Format) : string :=
  let precipProbabilities :=
    map HourlyForecast.precipitation_probability (Forecast.hourly forecast) in
  let maxPrecipProbability := Math_max precipProbabilities in
  if is_zero maxPrecipProbability then EmptyString
  else join nl (Precipitation.rows forecast format).

Module Temperature.

Definition graphHeight : nat := 7.

Definition scaleTemperature (minTemperature maxTemperature temp : number) : integral :=
  Math_round
    (mul (div (sub temp minTemperature) (sub maxTemperature minTemperature))
         (of_Z (Z.of_nat graphHeight))).

Definition temps (forecast : Forecast.t) : list number :=
  map HourlyForecast.feels_like (Forecast.hourly forecast).

Definition scaledTemps (forecast : Forecast.t) : list integral :=
  let maxTemperature := Math_max (temps forecast) in
  let minTemperature := Math_min (temps forecast) in
  map (scaleTemperature minTemperature maxTemperature) (temps forecast).

Definition high_label (maxTemperature : number) : string :=
  slice ("    H " ++ ToString (Math_round maxTemperature) ++ "F  ") (- PREFIX_LEN) None.

Definition low_label (minTemperature : number) : string :=
  slice ("    L " ++ ToString (Math_round minTemperature) ++ "F  ") (- PREFIX_LEN) None.

(** The array [result] after the loop, before the baseline is pushed. *)
Definition rows (forecast : Forecast.t) (format : Format) : list string :=
  let maxTemperature := Math_max (temps forecast) in
  map (fun i =>
         let prefix :=
           if (i =? Z.of_nat graphHeight)%Z
           then bold (high_label maxTemperature) format
           else PREFIX in
         prefix ++ markers (scaledTemps forecast) i)
      (count_down graphHeight).

(** The baseline pushed after the loop. *)
Definition baseline (forecast : Forecast.t) (format : Format) : except string :=
  let minTemperature := Math_min (temps forecast) in
  floor <- repeat "**" (Z.of_nat (List.length (scaledTemps forecast))) ;;
  Ok (bold (low_label minTemperature) format ++ floor).

(** The array [result] at the [return]. *)
Definition result (forecast : Forecast.t) (format : Format) : except (list string) :=
  last <- baseline forecast format ;;
  Ok (rows forecast format ++ [last])%list.

End Temperature.

Definition renderTemperatureGraph (forecast : Forecast.t) (format : Format) : except string :=
  result <- Temperature.result forecast format ;;
  Ok (join nl result).

Module TimeOffsets.

(** [`${i}h   `.slice(0, 4)] *)
Definition marker (i : nat) : string :=
  slice (ToString (Fin (Z.of_nat i)) ++ "h   ") 0 (Some 4%Z).

(** The loop of [renderTimeOffsets] from cursor [i] on, over [n] columns,
    with [result] built so far.  The cursor moves by two after a marker. *)
Equations? loop (format : Format) (n i : nat) (result : string) : string
  by wf (n - i) lt :=
  loop format n i result with lt_dec i n := {
    | right _ => result
    | left _ =>
        if (i =? n - 1)%nat
        then result ++ bold (ToString (Fin (Z.of_nat (n - 1))) ++ "h") format
        else if (i mod 6 =? 0)%nat
             then loop format n (i + 1 + 1) (result ++ bold (marker i) format)
             else loop format n (i + 1) (result ++ "  ")
  }.
Proof. all: lia. Qed.

End TimeOffsets.

Definition renderTimeOffsets (forecast : Forecast.t) (format : Format) : string :=
  TimeOffsets.loop format (List.length (Forecast.hourly forecast)) 0 PREFIX.

(** ** The report composer *)

(** [l.filter(v => v)] over strings and [undefined] (here [None]): the empty
    string and [undefined] are falsy. *)
Fixpoint filter_truthy (l : list (option string)) : list string :=
  match l with
  | [] => []
  | None :: xs => filter_truthy xs
  | Some EmptyString :: xs => filter_truthy xs
  | Some s :: xs => s :: filter_truthy xs
  end.

Definition render (forecast : Forecast.t) (format : Format) : except string :=
  temperatureGraph <- renderTemperatureGraph forecast format ;;
  Ok (join nl (filter_truthy [
        Some (match format with html => "<html><pre>" | tty => nl end);
        match Forecast.alerts forecast with
        | [] => None
        | _ => Some (bold ("Alerts:  " ++ join ", " (Forecast.alerts forecast)) format)
        end;
        Some (bold ("Now:     " ++ ToString (Math_round (Forecast.feels_like forecast))
                    ++ "F, " ++ Forecast.current_summary forecast) format);
        Some (bold ("Later:   " ++ Forecast.future_summary forecast ++ nl) format);
        Some (renderTimeOffsets forecast format);
        Some temperatureGraph;
        Some (renderPrecipitationGraph forecast format);
        match format with html => Some "</pre></html>" | tty => None end
      ]) ++ nl ++ nl).

(** ** The forecast normalizer

    The upstream payload has the type [any]: it is a JSON value.  The casts
    [as number] and [as string] do nothing at run time, so the normalizer
    builds an object whose fields hold whatever the payload holds. *)

Module DarkSky.

#[local] Unset Elimination Schemes.
Inductive value : Type :=
| Undefined
| Null
| Boolean (b : bool)
| Number (n : number)
| Text (s : string)
| Array (items : list value)
| Object (fields : list (string * value)).
#[local] Set Elimination Schemes.

(** The fields of an object are listed with the binding in force first. *)
Fixpoint lookup (key : string) (fields : list (string * value)) : value :=
  match fields with
  | [] => Undefined
  | (k, v) :: rest => if String.eqb k key then v else lookup key rest
  end.

(** [v.key] for the property names the normalizer reads: reading a property
    of [undefined] or [null] throws a TypeError; primitives and arrays have
    none of these properties. *)
Definition get (v : value) (key : string) : except value :=
  match v with
  | Undefined | Null => Throw TypeError
  | Object fields => Ok (lookup key fields)
  | _ => Ok Undefined
  end.

(** [v ? _ : _] *)
Definition truthy (v : value) : bool :=
  match v with
  | Undefined | Null => false
  | Boolean b => b
  | Number n => negb (is_zero n || is_NaN n)
  | Text s => negb (String.eqb s EmptyString)
  | Array _ | Object _ => true
  end.

(** [v.map(f)]: only an array has a [map] method (a JSON value holds no
    function), calling anything else throws a TypeError. *)
Definition array_map (v : value) (f : value -> except value) : except value :=
  match v with
  | Array items => items' <- mapM f items ;; Ok (Array items')
  | _ => Throw TypeError
  end.

(** [v.slice(0, n)]: arrays and strings have a [slice] method. *)
Definition slice_first (v : value) (n : nat) : except value :=
  match v with
  | Array items => Ok (Array (firstn n items))
  | Text s => Ok (Text (slice s 0 (Some (Z.of_nat n))))
  | _ => Throw TypeError
  end.

Definition transformHour (hour : value) : except value :=
  temperature <- get hour "temperature" ;;
  feels_like <- get hour "apparentTemperature" ;;
  precipitation_probability <- get hour "precipProbability" ;;
  Ok (Object [("temperature", temperature);
              ("feels_like", feels_like);
              ("precipitation_probability", precipitation_probability)]).

Definition transformDarkSkyForecast (data : value) : except value :=
  alerts_present <- get data "alerts" ;;
  alerts <- (if truthy alerts_present
             then (alerts <- get data "alerts" ;;
                   array_map alerts (fun a => get a "title"))
             else Ok (Array [])) ;;
  currently <- get data "currently" ;;
  temperature <- get currently "temperature" ;;
  currently <- get data "currently" ;;
  feels_like <- get currently "apparentTemperature" ;;
  currently <- get data "currently" ;;
  current_summary <- get currently "summary" ;;
  hourly <- get data "hourly" ;;
  future_summary <- get hourly "summary" ;;
  hourly <- get data "hourly" ;;
  series <- get hourly "data" ;;
  first25 <- slice_first series 25 ;;
  hourly <- array_map first25 transformHour ;;
  Ok (Object [("alerts", alerts);
              ("temperature", temperature);
              ("feels_like", feels_like);
              ("current_summary", current_summary);
              ("future_summary", future_summary);
              ("hourly", hourly)]).

End DarkSky.

(** ** The entry point

    [handler] is modelled from the parsed query on.  Its two collaborators
    are parameters: [getForecastForZipCode], which fetches over the network
    and either rejects with an error (here its message) or resolves to a
    forecast, and the message of an error of the runtime.  The response is
    the list of the calls made on it, in order; [await] is sequential. *)

Module Handler.

(** [url.query.zipcode]: [undefined], a string, or an array of strings. *)
Inductive query : Type :=
| Absent
| One (value : string)
| Many (values : list string).

(** The calls on the response. *)
Inductive call : Type :=
| writeHead (status : nat) (headers : list (string * string))
| end_ (body : string).

(** [t] starts with [p]. *)
Fixpoint has_prefix (p t : string) : bool :=
  match p, t with
  | EmptyString, _ => true
  | String a p', String b t' => Ascii.eqb a b && has_prefix p' t'
  | String _ _, EmptyString => false
  end.

(** [s.includes(part)]: [part] starts at some position of [s]. *)
Fixpoint includes (s part : string) : bool :=
  has_prefix part s
  || match s with
     | EmptyString => false
     | String _ s' => includes s' part
     end.

(** [request.headers.accept && request.headers.accept.includes('html')
     ? Format.html : Format.tty]; [None] is an absent header. *)
Definition negotiate (accept : option string) : Format :=
  match accept with
  | None | Some EmptyString => tty
  | Some header => if includes header "html" then html else tty
  end.

Section Collaborators.

Variable getForecastForZipCode : string -> string + Forecast.t.
Variable message : error -> string.

(** The [catch] block. *)
Definition failed (message_text : string) : list call :=
  [writeHead 500 []; end_ message_text].

Definition handler (zipcode : query) (accept : option string) : list call :=
  match zipcode with
  | Absent | One EmptyString => failed "Missing zipcode parameter"
  | Many _ => failed "Cannot specify multiple zipcodes"
  | One code =>
      let format := negotiate accept in
      match getForecastForZipCode code with
      | inl rejected => failed rejected
      | inr forecast =>
          writeHead 200 [("Content-Type", "text/html")]
          :: match render forecast format with
             | Ok report => [end_ report]
             | Throw e => failed (message e)
             end
      end
  end.

End Collaborators.

End Handler.

(** * Notions the specification uses

    The definitions below are not part of the program: they say what the
    specification means by a line, a column, a stripped text, a rounded
    value and an absent block. *)

(** ** Characters and lines *)

(** Every character of [s] satisfies [P]. *)
Fixpoint all_chars (P : ascii -> bool) (s : string) : bool :=
  match s with
  | EmptyString => true
  | String c s' => P c && all_chars P s'
  end.

(** A character other than the newline. *)
Definition inline (c : ascii) : bool := negb (Ascii.eqb c "010").

(** A character that opens no decoration sequence and ends no line. *)
Definition plain (c : ascii) : bool :=
  negb (Ascii.eqb c "027") && negb (Ascii.eqb c "<") && negb (Ascii.eqb c "010").

(** The lines of a text: its parts between newline characters. *)
Fixpoint lines (s : string) : list string :=
  match s with
  | EmptyString => [EmptyString]
  | String c s' =>
      if Ascii.eqb c "010" then EmptyString :: lines s'
      else match lines s' with
           | [] => [String c EmptyString]
           | l :: ls => String c l :: ls
           end
  end.

(** The lines a section adds to the report: none when the section is the
    empty string, which the composer drops. *)
Definition section_lines (s : string) : list string :=
  match s with
  | EmptyString => []
  | _ => lines s
  end.

(** [s] occurs in [t] as a contiguous substring. *)
Definition contains (t s : string) : Prop :=
  exists before after : string, t = before ++ s ++ after.

(** ** Stripping decoration

    The specification speaks of a report line "after stripping all format
    decoration".  The program has no such function; [strip_decoration]
    follows the specification's words: scanning left to right, every
    occurrence of a sequence that [bold] or [cyan] emits for the format is
    removed. *)

Module Strip.

Definition codes (format : Format) : list string :=
  match format with
  | tty => [esc ++ "[1m"; esc ++ "[36m"; esc ++ "[0m"]
  | html => ["<strong>"; "</strong>";
             "<span style=" ++ dquote ++ "color: teal" ++ dquote ++ ">"; "</span>"]
  end.

(** The character every sequence of the format starts with. *)
Definition opener (format : Format) : ascii :=
  match format with
  | tty => "027"%char
  | html => "<"%char
  end.

Fixpoint starts_with (p s : string) : bool :=
  match p, s with
  | EmptyString, _ => true
  | String a p', String b s' => Ascii.eqb a b && starts_with p' s'
  | String _ _, EmptyString => false
  end.

(** The length of the first of [cs] that [s] starts with. *)
Fixpoint first_match (cs : list string) (s : string) : option nat :=
  match cs with
  | [] => None
  | c :: cs' => if starts_with c s then Some (String.length c) else first_match cs' s
  end.

(** [skip] characters are still to be dropped from a sequence found before. *)
Fixpoint strip_from (format : Format) (skip : nat) (s : string) : string :=
  match s with
  | EmptyString => EmptyString
  | String c s' =>
      match skip with
      | S k => strip_from format k s'
      | O =>
          match first_match (codes format) s with
          | Some len => strip_from format (len - 1) s'
          | None => String c (strip_from format 0 s')
          end
      end
  end.

(** What [bold] and [cyan] put before and after a text. *)
Definition bold_open (format : Format) : string :=
  match format with html => "<strong>" | tty => esc ++ "[1m" end.

Definition bold_close (format : Format) : string :=
  match format with html => "</strong>" | tty => esc ++ "[0m" end.

Definition cyan_open (format : Format) : string :=
  match format with
  | html => "<span style=" ++ dquote ++ "color: teal" ++ dquote ++ ">"
  | tty => esc ++ "[36m"
  end.

Definition cyan_close (format : Format) : string :=
  match format with html => "</span>" | tty => esc ++ "[0m" end.

(** A sequence that starts with [o] and has no other [o]. *)
Definition code_ok (o : ascii) (c : string) : bool :=
  match c with
  | EmptyString => false
  | String a t => Ascii.eqb a o && all_chars (fun x => negb (Ascii.eqb x o)) t
  end.

End Strip.

Definition strip_decoration (format : Format) (s : string) : string :=
  Strip.strip_from format 0 s.

(** [s] occurs in [t], decided by scanning [t]. *)
Fixpoint occursb (s t : string) : bool :=
  Strip.starts_with s t
  || match t with
     | EmptyString => false
     | String _ t' => occursb s t'
     end.

(** ** Rounding and extrema *)

(** The integer nearest to [x], a tie going up. *)
Definition round_half_up (x : Q) : Z := Qfloor (x + (1 # 2))%Q.

(** [m] is a least, respectively a greatest, element of [qs]. *)
Definition is_minimum (m : Q) (qs : list Q) : Prop :=
  In m qs /\ forall q, In q qs -> (m <= q)%Q.

Definition is_maximum (m : Q) (qs : list Q) : Prop :=
  In m qs /\ forall q, In q qs -> (q <= m)%Q.

(** ** Rows, columns and sections of the charts *)

(** The two characters of column [j] in a chart row, after the 9-character
    prefix of the undecorated row. *)
Definition cell (format : Format) (row : string) (j : nat) : string :=
  take 2 (drop (9 + 2 * j) (strip_decoration format row)).

(** The baseline of the temperature graph when [repeat] does not throw:
    the low label and one marker per column. *)
Definition floor_row (forecast : Forecast.t) (format : Format) : string :=
  bold (Temperature.low_label (Math_min (Temperature.temps forecast))) format
  ++ repeat_string "**" (List.length (Forecast.hourly forecast)).

Definition probabilities (forecast : Forecast.t) : list number :=
  map HourlyForecast.precipitation_probability (Forecast.hourly forecast).

Definition scaledPrecips (forecast : Forecast.t) : list integral :=
  map Precipitation.scalePrecipitation (probabilities forecast).


Definition blank_prefixed (row : string) : Prop :=
  exists body : string, row = PREFIX ++ body.

(** The width of the time axis over [n] columns (up to 25) without its
    decoration: a final label of two digits takes one character more than
    its column, unless the cursor has jumped over the last column. *)
Definition time_axis_width (n : nat) : nat :=
  9 + 2 * n + (if (10 <? n)%nat && negb (n mod 6 =? 2)%nat then 1 else 0).



(** ** Blocks of the upstream payload *)

(** A value that is there: neither [undefined] nor [null]. *)
Definition present (v : DarkSky.value) : bool :=
  match v with
  | DarkSky.Undefined | DarkSky.Null => false
  | _ => true
  end.

(** The field of a block; [undefined] when the block is no object. *)
Definition field (v : DarkSky.value) (key : string) : DarkSky.value :=
  match v with
  | DarkSky.Object fields => DarkSky.lookup key fields
  | _ => DarkSky.Undefined
  end.

(** The canonical hourly entry of an upstream entry. *)
Definition canonical_hour (h : DarkSky.value) : DarkSky.value :=
  DarkSky.Object [("temperature", field h "temperature");
                  ("feels_like", field h "apparentTemperature");
                  ("precipitation_probability", field h "precipProbability")].

(** * Sample forecasts and payloads *)

Definition hour (feels precip : Q) : HourlyForecast.t :=
  HourlyForecast.mk (Fin feels) (Fin feels) (Fin precip).
Arguments hour (feels precip)%_Q.

Definition forecast_of (hours : list HourlyForecast.t) : Forecast.t :=
  Forecast.mk [] (Fin 47%Q) (Fin 44%Q) "Overcast" "Rain tonight." hours.

(** [n] hours of 50 degrees without rain. *)
Definition hours (n : nat) : Forecast.t := forecast_of (List.repeat (hour 50 0) n).

Definition two_hours : Forecast.t := forecast_of [hour 30 0; hour 50 0].

Definition uniform_hours : Forecast.t := forecast_of [hour 50 0; hour 50 0].

Definition three_hours : Forecast.t :=
  forecast_of [hour 30 0; hour 40 (1 # 2); hour 50 1].


Definition payload_hour (t a p : Q) : DarkSky.value :=
  DarkSky.Object [("time", DarkSky.Number (Fin 1541799500%Q));
                  ("temperature", DarkSky.Number (Fin t));
                  ("apparentTemperature", DarkSky.Number (Fin a));
                  ("precipProbability", DarkSky.Number (Fin p))].

Definition payload : DarkSky.value :=
  DarkSky.Object
    [("latitude", DarkSky.Number (Fin (423 # 10)%Q));
     ("currently", DarkSky.Object [("summary", DarkSky.Text "Overcast");
                                   ("temperature", DarkSky.Number (Fin (4737 # 100)%Q));
                                   ("apparentTemperature", DarkSky.Number (Fin (4428 # 100)%Q))]);
     ("hourly", DarkSky.Object [("summary", DarkSky.Text "Rain tonight.");
                                ("data", DarkSky.Array (List.repeat (payload_hour 47 44 (1 # 2)) 49))]);
     ("alerts", DarkSky.Array [DarkSky.Object [("title", DarkSky.Text "Flood Watch")]])].

Definition payload_without_currently : DarkSky.value :=
  DarkSky.Object
    [("hourly", DarkSky.Object [("summary", DarkSky.Text "Rain tonight.");
                                ("data", DarkSky.Array [payload_hour 47 44 0])])].

(** The required blocks are there, and the alerts collection is a number. *)
Definition payload_alerts_number : DarkSky.value :=
  DarkSky.Object [("alerts", DarkSky.Number (Fin 5%Q));
                  ("currently", DarkSky.Object []);
                  ("hourly", DarkSky.Object [("data", DarkSky.Array [])])].

(** * Tactics *)

(** Linear arithmetic with the remainders by 6 of the cursor and the width. *)
Ltac mod6 x :=
  pose proof (Nat.div_mod_eq x 6); pose proof (Nat.mod_upper_bound x 6 ltac:(discriminate)).

Ltac lia_mod :=
  match goal with
  | i : nat, n : nat, _ : (?i < ?n)%nat |- _ =>
      mod6 i; mod6 (i + 1)%nat; mod6 (i + 1 + 1)%nat; mod6 n; lia
  end.

(** A text after which stripping starts afresh: no decoration sequence
    begins in [r] and ends in what follows it. *)
Definition closed (format : Format) (r : string) : Prop :=
  forall x : string,
    strip_decoration format (r ++ x) = strip_decoration format r ++ strip_decoration format x.


(** A reading that is not a number among three hours. *)
Definition unreadable_hours : Forecast.t :=
  forecast_of [hour 30 0; HourlyForecast.mk NaN NaN NaN; hour 50 1].

(** A forecast source that knows one postal code. *)
Definition one_city (code : string) : string + Forecast.t :=
  if String.eqb code "02130" then inr three_hours else inl "lookup failed".

Definition no_message (e : error) : string := EmptyString.


(** * Properties *)

(** ** Examples of the primitives *)

Example round_half_up_ex :
  Math_round (Fin (7 # 2)%Q) = Fin 4%Z /\ Math_round (Fin (-5 # 2)%Q) = Fin (-2)%Z.
Proof. split; reflexivity. Qed.

Example ToString_ex :
  ToString (Fin 0%Z) = "0" /\ ToString (Fin (-12)%Z) = "-12" /\ ToString (Fin 100%Z) = "100".
Proof. repeat split; reflexivity. Qed.

Example slice_ex :
  slice "    R 100%  " (-9) None = " R 100%  " /\ slice "18h   " 0 (Some 4%Z) = "18h ".
Proof. split; reflexivity. Qed.

Example strip_ex :
  strip_decoration tty (cyan (bold " R 100%  " tty) tty ++ cyan "  **" tty) = " R 100%    **"
  /\ strip_decoration html (cyan (bold " R 100%  " html) html ++ cyan "  **" html) = " R 100%    **".
Proof. split; reflexivity. Qed.

(** ** Strings: lengths and characters *)

Section StringFacts.

Lemma append_nil_r (s : string) : s ++ EmptyString = s.
Proof. induction s as [|c s IH]; simpl; [reflexivity | now rewrite IH]. Qed.

Lemma append_assoc (a b c : string) : (a ++ b) ++ c = a ++ (b ++ c).
Proof. induction a as [|x a IH]; simpl; [reflexivity | now rewrite IH]. Qed.

Lemma length_append (a b : string) :
  String.length (a ++ b) = (String.length a + String.length b)%nat.
Proof. induction a as [|x a IH]; simpl; [reflexivity | now rewrite IH]. Qed.

Lemma length_take (n : nat) (s : string) :
  String.length (take n s) = Nat.min n (String.length s).
Proof.
  revert s; induction n as [|n IH]; intros [|c s]; simpl; try reflexivity.
  now rewrite IH.
Qed.

Lemma length_drop (n : nat) (s : string) :
  String.length (drop n s) = (String.length s - n)%nat.
Proof.
  revert s; induction n as [|n IH]; intros [|c s]; simpl; try reflexivity.
  apply IH.
Qed.

Lemma length_slice_last (s : string) (k : nat) :
  (0 < k <= String.length s)%nat ->
  String.length (slice s (- Z.of_nat k) None) = k.
Proof.
  intros Hk. unfold slice, relative_index.
  destruct (Z.ltb_spec (- Z.of_nat k) 0) as [_|Hge]; [|lia].
  rewrite length_take, length_drop. lia.
Qed.

Lemma length_slice_first (s : string) (k : nat) :
  (k <= String.length s)%nat ->
  String.length (slice s 0 (Some (Z.of_nat k))) = k.
Proof.
  intros Hk. unfold slice, relative_index.
  destruct (Z.ltb_spec (Z.of_nat k) 0) as [Hlt|_]; [lia|].
  simpl. rewrite length_take. simpl. rewrite Nat2Z.id. lia.
Qed.

Lemma length_repeat_string (s : string) (n : nat) :
  String.length (repeat_string s n) = (n * String.length s)%nat.
Proof. induction n as [|n IH]; simpl; [reflexivity|]. now rewrite length_append, IH. Qed.

Variable P : ascii -> bool.

Lemma all_chars_append (a b : string) :
  all_chars P (a ++ b) = all_chars P a && all_chars P b.
Proof. induction a as [|x a IH]; simpl; [reflexivity|]. now rewrite IH, andb_assoc. Qed.

Lemma all_chars_take (n : nat) (s : string) :
  all_chars P s = true -> all_chars P (take n s) = true.
Proof.
  revert s; induction n as [|n IH]; intros [|c s]; simpl; try reflexivity.
  rewrite !andb_true_iff. intros [Hc Hs]. auto.
Qed.

Lemma all_chars_drop (n : nat) (s : string) :
  all_chars P s = true -> all_chars P (drop n s) = true.
Proof.
  revert s; induction n as [|n IH]; intros [|c s]; simpl; try easy.
  rewrite andb_true_iff. intros [_ Hs]. auto.
Qed.

Lemma all_chars_slice (s : string) (start : Z) (end_ : option Z) :
  all_chars P s = true -> all_chars P (slice s start end_) = true.
Proof. intros H. unfold slice. now apply all_chars_take, all_chars_drop. Qed.

Lemma all_chars_repeat_string (s : string) (n : nat) :
  all_chars P s = true -> all_chars P (repeat_string s n) = true.
Proof.
  intros H. induction n as [|n IH]; simpl; [reflexivity|].
  now rewrite all_chars_append, H, IH.
Qed.

End StringFacts.

(** ** Decoration and its removal *)

Section Decoration.

Import Strip.

Variable format : Format.

Lemma bold_wrap (s : string) :
  bold s format = bold_open format ++ s ++ bold_close format.
Proof. destruct format; reflexivity. Qed.

Lemma cyan_wrap (s : string) :
  cyan s format = cyan_open format ++ s ++ cyan_close format.
Proof. destruct format; reflexivity. Qed.

Lemma wrappers_are_codes :
  In (bold_open format) (codes format) /\ In (bold_close format) (codes format) /\
  In (cyan_open format) (codes format) /\ In (cyan_close format) (codes format).
Proof. destruct format; simpl; intuition. Qed.

Lemma codes_ok : forallb (code_ok (opener format)) (codes format) = true.
Proof. destruct format; reflexivity. Qed.

Lemma code_ok_in (c : string) :
  In c (codes format) -> code_ok (opener format) c = true.
Proof.
  intros Hin. pose proof codes_ok as H. rewrite forallb_forall in H. auto.
Qed.

Lemma strip_from_cons (skip : nat) (c : ascii) (s : string) :
  strip_from format skip (String c s) =
  match skip with
  | S k => strip_from format k s
  | O => match first_match (codes format) (String c s) with
         | Some len => strip_from format (len - 1) s
         | None => String c (strip_from format 0 s)
         end
  end.
Proof. reflexivity. Qed.

(** A sequence at the head of the text is dropped whole. *)
Lemma strip_code (c rest : string) :
  In c (codes format) ->
  strip_from format 0 (c ++ rest) = strip_from format 0 rest.
Proof.
  destruct format; simpl; intros H;
    repeat (destruct H as [<- | H]; [reflexivity|]); contradiction.
Qed.

Lemma starts_with_length (p s : string) :
  starts_with p s = true -> (String.length p <= String.length s)%nat.
Proof.
  revert s; induction p as [|a p IH]; intros [|b s]; simpl; try lia; try discriminate.
  rewrite andb_true_iff. intros [_ H]. apply IH in H. lia.
Qed.

Lemma first_match_length (cs : list string) (s : string) (len : nat) :
  first_match cs s = Some len -> (len <= String.length s)%nat.
Proof.
  induction cs as [|c cs IH]; simpl; [discriminate|].
  destruct (starts_with c s) eqn:E; [|exact IH].
  intros [= <-]. now apply starts_with_length.
Qed.

(** A text without [o] is matched the same whether or not a text that
    starts with [o] follows the scanned one. *)
Lemma starts_with_boundary (o : ascii) (p s rest : string) :
  all_chars (fun x => negb (Ascii.eqb x o)) p = true ->
  starts_with p (s ++ String o rest) = starts_with p s.
Proof.
  revert s; induction p as [|a p IH]; intros s Hp; [now destruct s|].
  simpl in Hp. apply andb_true_iff in Hp as [Ha Hp].
  destruct s as [|b s]; simpl.
  - apply negb_true_iff in Ha. now rewrite Ha.
  - now rewrite IH.
Qed.

Lemma first_match_boundary (o : ascii) (cs : list string) (a : ascii) (s rest : string) :
  forallb (code_ok o) cs = true ->
  first_match cs (String a s ++ String o rest) = first_match cs (String a s).
Proof.
  induction cs as [|c cs IH]; simpl; [reflexivity|].
  rewrite andb_true_iff. intros [Hc Hcs].
  destruct c as [|x t]; [discriminate|]. simpl in Hc.
  apply andb_true_iff in Hc as [_ Ht].
  cbn [starts_with]. rewrite (starts_with_boundary o t s rest Ht).
  destruct (Ascii.eqb x a && starts_with t s); [reflexivity|]. now apply IH.
Qed.

Lemma code_starts_with_opener (c : string) :
  In c (codes format) -> exists t, c = String (opener format) t.
Proof.
  intros H. apply code_ok_in in H. destruct c as [|a t]; [discriminate|].
  simpl in H. apply andb_true_iff in H as [H _]. apply Ascii.eqb_eq in H.
  subst a. now exists t.
Qed.

(** Scanning a text that is followed by a sequence: the sequence is found
    at the boundary, and nothing before it is matched differently. *)
Lemma strip_from_before_code (s : string) : forall (skip : nat) (c rest : string),
  In c (codes format) ->
  (skip <= String.length s)%nat ->
  strip_from format skip (s ++ c ++ rest) =
  strip_from format skip s ++ strip_from format 0 rest.
Proof.
  induction s as [|a s IH]; intros skip c rest Hc Hskip.
  - simpl in Hskip. assert (skip = 0%nat) as -> by lia. simpl. now apply strip_code.
  - destruct (code_starts_with_opener c Hc) as [t Ht].
    change (String a s ++ c ++ rest) with (String a (s ++ c ++ rest)).
    rewrite !strip_from_cons. destruct skip as [|k].
    + assert (first_match (codes format) (String a (s ++ c ++ rest)) =
              first_match (codes format) (String a s)) as ->.
      { rewrite Ht. change (String a (s ++ String (opener format) t ++ rest))
          with (String a s ++ String (opener format) (t ++ rest)).
        apply first_match_boundary, codes_ok. }
      destruct (first_match (codes format) (String a s)) as [len|] eqn:E.
      * apply first_match_length in E. simpl in E. apply IH; [exact Hc | lia].
      * simpl. f_equal. apply IH; [exact Hc | lia].
    + simpl in Hskip. apply IH; [exact Hc | lia].
Qed.

Lemma strip_before_code (s c rest : string) :
  In c (codes format) ->
  strip_decoration format (s ++ c ++ rest) =
  strip_decoration format s ++ strip_decoration format rest.
Proof. intros Hc. apply strip_from_before_code; [exact Hc | lia]. Qed.

Lemma strip_decoration_code (c rest : string) :
  In c (codes format) ->
  strip_decoration format (c ++ rest) = strip_decoration format rest.
Proof. apply strip_code. Qed.

Lemma strip_decoration_bold (s rest : string) :
  strip_decoration format (bold s format ++ rest) =
  strip_decoration format s ++ strip_decoration format rest.
Proof.
  destruct wrappers_are_codes as (Hbo & Hbc & _).
  rewrite bold_wrap, !append_assoc, strip_decoration_code by exact Hbo.
  now apply strip_before_code.
Qed.

Lemma strip_decoration_cyan (s rest : string) :
  strip_decoration format (cyan s format ++ rest) =
  strip_decoration format s ++ strip_decoration format rest.
Proof.
  destruct wrappers_are_codes as (_ & _ & Hco & Hcc).
  rewrite cyan_wrap, !append_assoc, strip_decoration_code by exact Hco.
  now apply strip_before_code.
Qed.

(** Plain text has nothing to strip. *)
Lemma first_match_plain (cs : list string) (a : ascii) (s : string) :
  forallb (code_ok (opener format)) cs = true ->
  plain a = true ->
  first_match cs (String a s) = None.
Proof.
  intros Hcs Ha. induction cs as [|c cs IH]; [reflexivity|].
  simpl in Hcs. apply andb_true_iff in Hcs as [Hc Hcs].
  destruct c as [|x t]; [discriminate|]. simpl in Hc.
  apply andb_true_iff in Hc as [Hx _]. apply Ascii.eqb_eq in Hx. subst x.
  simpl. assert (Ascii.eqb (opener format) a = false) as ->.
  { unfold plain in Ha. rewrite !andb_true_iff, !negb_true_iff in Ha.
    destruct Ha as [[H1 H2] _]. rewrite Ascii.eqb_sym. now destruct format. }
  simpl. now apply IH.
Qed.

Lemma strip_plain (s rest : string) :
  all_chars plain s = true ->
  strip_decoration format (s ++ rest) = s ++ strip_decoration format rest.
Proof.
  unfold strip_decoration. induction s as [|a s IH]; intros H; [reflexivity|].
  simpl in H. apply andb_true_iff in H as [Ha Hs].
  change (String a s ++ rest) with (String a (s ++ rest)).
  rewrite strip_from_cons, first_match_plain by (apply codes_ok || exact Ha).
  simpl. f_equal. now apply IH.
Qed.

Lemma strip_plain_all (s : string) :
  all_chars plain s = true -> strip_decoration format s = s.
Proof.
  intros H. rewrite <- (append_nil_r s) at 1. rewrite strip_plain by exact H.
  apply append_nil_r.
Qed.

End Decoration.

Lemma contains_cyan_bold (s : string) (format : Format) :
  contains (cyan (bold s format) format) s.
Proof.
  exists (Strip.cyan_open format ++ Strip.bold_open format),
         (Strip.bold_close format ++ Strip.cyan_close format).
  now rewrite cyan_wrap, bold_wrap, !append_assoc.
Qed.

Lemma contains_bold_cyan (s : string) (format : Format) :
  contains (bold (cyan s format) format) s.
Proof.
  exists (Strip.bold_open format ++ Strip.cyan_open format),
         (Strip.cyan_close format ++ Strip.bold_close format).
  now rewrite cyan_wrap, bold_wrap, !append_assoc.
Qed.

Lemma strip_decoration_empty (format : Format) :
  strip_decoration format EmptyString = EmptyString.
Proof. reflexivity. Qed.

(** C7, as the specification states it, fails: a text that itself holds a
    decoration sequence loses it when the decoration is stripped. *)
Lemma decoration_round_trip_fails :
  strip_decoration html (cyan (bold "<strong>" html) html) <> "<strong>"
  /\ strip_decoration tty (bold (cyan (esc ++ "[0m") tty) tty) <> esc ++ "[0m".
Proof. split; discriminate. Qed.

(** C7 (amended): for every text [s] that holds no decoration sequence of
    the format [f] (stripping leaves it as it is), both [cyan (bold s f) f]
    and [bold (cyan s f) f] contain [s] as a contiguous substring, and
    stripping all decoration from either gives back exactly [s]. *)
Theorem decoration_round_trip (s : string) (f : Format) :
  strip_decoration f s = s ->
  contains (cyan (bold s f) f) s
  /\ contains (bold (cyan s f) f) s
  /\ strip_decoration f (cyan (bold s f) f) = s
  /\ strip_decoration f (bold (cyan s f) f) = s.
Proof.
  intros Hs. split; [apply contains_cyan_bold|]. split; [apply contains_bold_cyan|].
  split.
  - rewrite <- (append_nil_r (cyan (bold s f) f)).
    rewrite strip_decoration_cyan.
    rewrite <- (append_nil_r (bold s f)), strip_decoration_bold.
    now rewrite Hs, strip_decoration_empty, !append_nil_r.
  - rewrite <- (append_nil_r (bold (cyan s f) f)).
    rewrite strip_decoration_bold.
    rewrite <- (append_nil_r (cyan s f)), strip_decoration_cyan.
    now rewrite Hs, strip_decoration_empty, !append_nil_r.
Qed.

(** The round trip of the text of a report line, on a terminal. *)
Lemma decoration_round_trip_witness :
  contains (cyan (bold "Now: 44F" tty) tty) "Now: 44F"
  /\ contains (bold (cyan "Now: 44F" tty) tty) "Now: 44F"
  /\ strip_decoration tty (cyan (bold "Now: 44F" tty) tty) = "Now: 44F"
  /\ strip_decoration tty (bold (cyan "Now: 44F" tty) tty) = "Now: 44F".
Proof. apply (decoration_round_trip "Now: 44F" tty). reflexivity. Defined.

(** ** Labels, markers and lines *)

Section Rows.

Lemma all_chars_impl (P R : ascii -> bool) (s : string) :
  (forall c, P c = true -> R c = true) ->
  all_chars P s = true -> all_chars R s = true.
Proof.
  intros HPR. induction s as [|c s IH]; simpl; [reflexivity|].
  rewrite !andb_true_iff. intros [Hc Hs]. auto.
Qed.

Lemma plain_inline (s : string) : all_chars plain s = true -> all_chars inline s = true.
Proof.
  apply all_chars_impl. intros c. unfold plain, inline.
  rewrite !andb_true_iff. tauto.
Qed.

Lemma plain_digits (d : Decimal.uint) :
  all_chars plain (NilEmpty.string_of_uint d) = true.
Proof. induction d; simpl; auto. Qed.

Lemma plain_ToString (a : integral) : all_chars plain (ToString a) = true.
Proof.
  destruct a as [| | |z]; try reflexivity.
  unfold ToString, NilZero.string_of_int, NilZero.string_of_uint.
  destruct (Z.to_int z) as [d|d]; destruct d; try reflexivity;
    simpl; apply plain_digits.
Qed.

Lemma length_PREFIX : String.length PREFIX = 9%nat.
Proof. reflexivity. Qed.

(** A label cut by [slice(-PREFIX_LEN)] out of a template with a number
    between [before] and [after]. *)
Lemma label_length (before after : string) (a : integral) :
  (9 <= String.length before + String.length after)%nat ->
  String.length (slice (before ++ ToString a ++ after) (- PREFIX_LEN) None) = 9%nat.
Proof.
  intros H. apply (length_slice_last _ 9). rewrite !length_append. lia.
Qed.

Lemma label_plain (before after : string) (a : integral) :
  all_chars plain before = true -> all_chars plain after = true ->
  all_chars plain (slice (before ++ ToString a ++ after) (- PREFIX_LEN) None) = true.
Proof.
  intros Hb Ha. apply all_chars_slice.
  now rewrite !all_chars_append, Hb, Ha, plain_ToString.
Qed.

Lemma join_empty_cons (x : string) (xs : list string) :
  join EmptyString (x :: xs) = x ++ join EmptyString xs.
Proof.
  unfold join. destruct xs as [|y ys]; simpl; [now rewrite append_nil_r | reflexivity].
Qed.

Lemma markers_cons (p : integral) (scaled : list integral) (i : Z) :
  markers (p :: scaled) i = (if ge_int p i then "**" else "  ") ++ markers scaled i.
Proof. unfold markers. simpl map. apply join_empty_cons. Qed.

Lemma markers_length (scaled : list integral) (i : Z) :
  String.length (markers scaled i) = (2 * List.length scaled)%nat.
Proof.
  induction scaled as [|p scaled IH]; [reflexivity|].
  rewrite markers_cons, length_append, IH. destruct (ge_int p i); simpl; lia.
Qed.

Lemma markers_plain (scaled : list integral) (i : Z) :
  all_chars plain (markers scaled i) = true.
Proof.
  induction scaled as [|p scaled IH]; [reflexivity|].
  rewrite markers_cons, all_chars_append, IH. now destruct (ge_int p i).
Qed.

(** The two characters of column [j] of a marker row. *)
Lemma markers_column (scaled : list integral) (i : Z) (j : nat) (p : integral) :
  nth_error scaled j = Some p ->
  take 2 (drop (2 * j) (markers scaled i)) = if ge_int p i then "**" else "  ".
Proof.
  revert j; induction scaled as [|q scaled IH]; intros j Hj.
  - now destruct j.
  - rewrite markers_cons. destruct j as [|j].
    + injection Hj as ->. now destruct (ge_int p i).
    + replace (2 * S j)%nat with (S (S (2 * j))) by lia.
      simpl in Hj. rewrite <- (IH j Hj). now destruct (ge_int q i).
Qed.

Lemma repeat_string_column (n j : nat) :
  (j < n)%nat -> take 2 (drop (2 * j) (repeat_string "**" n)) = "**".
Proof.
  revert j; induction n as [|n IH]; intros j Hj; [lia|].
  destruct j as [|j]; [now destruct n|].
  replace (2 * S j)%nat with (S (S (2 * j))) by lia. simpl. apply IH. lia.
Qed.

Lemma drop_append (a b : string) :
  drop (String.length a) (a ++ b) = b.
Proof. induction a as [|c a IH]; simpl; [now destruct b | exact IH]. Qed.

Lemma drop_add (n m : nat) (s : string) : drop (n + m) s = drop m (drop n s).
Proof.
  revert s; induction n as [|n IH]; intros s; simpl.
  - now destruct s, m.
  - destruct s as [|c s]; [now destruct m | apply IH].
Qed.

Lemma inline_bold (s : string) (format : Format) :
  all_chars inline (bold s format) = all_chars inline s.
Proof.
  destruct format; simpl; rewrite !all_chars_append; simpl; now rewrite ?andb_true_r.
Qed.

Lemma inline_cyan (s : string) (format : Format) :
  all_chars inline (cyan s format) = all_chars inline s.
Proof.
  destruct format; simpl; rewrite !all_chars_append; simpl; now rewrite ?andb_true_r.
Qed.

Lemma lines_inline (s : string) : all_chars inline s = true -> lines s = [s].
Proof.
  induction s as [|c s IH]; simpl; [reflexivity|].
  rewrite andb_true_iff. unfold inline at 1. rewrite negb_true_iff.
  intros [-> Hs]. now rewrite IH.
Qed.

Lemma lines_append_nl (a b : string) :
  all_chars inline a = true -> lines (a ++ nl ++ b) = a :: lines b.
Proof.
  induction a as [|c a IH]; intros H; [reflexivity|].
  simpl in H. apply andb_true_iff in H as [Hc Ha].
  unfold inline in Hc. apply negb_true_iff in Hc.
  change (String c a ++ nl ++ b) with (String c (a ++ nl ++ b)).
  cbn [lines]. now rewrite Hc, (IH Ha).
Qed.

Lemma lines_join (row : string) (rows : list string) :
  forallb (all_chars inline) (row :: rows) = true ->
  lines (join nl (row :: rows)) = row :: rows.
Proof.
  revert row; induction rows as [|r rows IH]; intros row H.
  - simpl in H. rewrite andb_true_r in H. now apply lines_inline.
  - change (forallb (all_chars inline) (row :: r :: rows))
      with (all_chars inline row && forallb (all_chars inline) (r :: rows)) in H.
    apply andb_true_iff in H as [Hrow Hrows].
    change (join nl (row :: r :: rows)) with (row ++ nl ++ join nl (r :: rows)).
    now rewrite lines_append_nl, IH.
Qed.

End Rows.

(** ** The temperature graph *)

Section TemperatureGraph.

Variable forecast : Forecast.t.
Variable format : Format.

Local Abbreviation n := (List.length (Forecast.hourly forecast)).
Local Abbreviation scaled := (Temperature.scaledTemps forecast).

Lemma scaledTemps_length : List.length scaled = n.
Proof. unfold scaled, Temperature.scaledTemps, Temperature.temps. now rewrite !length_map. Qed.

Lemma temperature_result :
  Temperature.result forecast format = Ok (Temperature.rows forecast format ++ [(floor_row forecast format)])%list.
Proof.
  unfold Temperature.result, Temperature.baseline, repeat.
  fold scaled. rewrite scaledTemps_length.
  destruct (Z.ltb_spec (Z.of_nat n) 0) as [H|_]; [lia|].
  simpl. now rewrite Nat2Z.id.
Qed.

Lemma temperature_rows_unfold :
  Temperature.rows forecast format =
  (bold (Temperature.high_label (Math_max (Temperature.temps forecast))) format
     ++ markers scaled 7)
  :: map (fun i => PREFIX ++ markers scaled i) [6; 5; 4; 3; 2; 1]%Z.
Proof. reflexivity. Qed.

Lemma high_label_facts (a : number) :
  String.length (Temperature.high_label a) = 9%nat
  /\ all_chars plain (Temperature.high_label a) = true.
Proof.
  split; [apply (label_length "    H " "F  ") | apply (label_plain "    H " "F  ")];
    simpl; auto; lia.
Qed.

Lemma low_label_facts (a : number) :
  String.length (Temperature.low_label a) = 9%nat
  /\ all_chars plain (Temperature.low_label a) = true.
Proof.
  split; [apply (label_length "    L " "F  ") | apply (label_plain "    L " "F  ")];
    simpl; auto; lia.
Qed.

(** Row [r] from the top (0 to 6) is the row of the loop counter [7 - r]:
    without decoration, a 9-character label and the markers of that counter. *)
Lemma temperature_row_at (r : nat) :
  (r < 7)%nat ->
  exists row lbl : string,
    nth_error (Temperature.rows forecast format) r = Some row
    /\ String.length lbl = 9%nat
    /\ all_chars inline row = true
    /\ strip_decoration format row = lbl ++ markers scaled (7 - Z.of_nat r).
Proof.
  intros Hr. rewrite temperature_rows_unfold.
  destruct (high_label_facts (Math_max (Temperature.temps forecast))) as [Hlen Hplain].
  destruct r as [|r].
  - eexists; eexists. split; [reflexivity|]. split; [exact Hlen|]. split.
    + rewrite all_chars_append, inline_bold.
      now rewrite (plain_inline _ Hplain), (plain_inline _ (markers_plain _ _)).
    + rewrite strip_decoration_bold.
      now rewrite (strip_plain_all _ _ Hplain), (strip_plain_all _ _ (markers_plain _ _)).
  - do 6 (destruct r as [|r];
          [eexists; exists PREFIX;
           split; [reflexivity|]; split; [reflexivity|]; split;
           [ rewrite all_chars_append; now rewrite (plain_inline _ (markers_plain _ _))
           | rewrite strip_plain by reflexivity;
             now rewrite (strip_plain_all _ _ (markers_plain _ _)) ] |]).
    lia.
Qed.

Lemma floor_row_facts :
  all_chars inline (floor_row forecast format) = true
  /\ exists lbl : string,
       String.length lbl = 9%nat
       /\ strip_decoration format (floor_row forecast format) = lbl ++ repeat_string "**" n.
Proof.
  destruct (low_label_facts (Math_min (Temperature.temps forecast))) as [Hlen Hplain].
  assert (all_chars plain (repeat_string "**" n) = true) as Hfloor
      by now apply all_chars_repeat_string.
  unfold floor_row. fold n. split.
  - rewrite all_chars_append, inline_bold.
    now rewrite (plain_inline _ Hplain), (plain_inline _ Hfloor).
  - eexists. split; [exact Hlen|]. rewrite strip_decoration_bold.
    now rewrite (strip_plain_all _ _ Hplain), (strip_plain_all _ _ Hfloor).
Qed.

(** A column of a row is read behind the 9-character label. *)
Lemma cell_behind_label (row lbl body : string) (j : nat) :
  String.length lbl = 9%nat ->
  strip_decoration format row = lbl ++ body ->
  cell format row j = take 2 (drop (2 * j) body).
Proof.
  intros Hlen Hrow. unfold cell. rewrite Hrow, drop_add, <- Hlen, drop_append.
  reflexivity.
Qed.

End TemperatureGraph.

Lemma ge_int_down (p : integral) (i i' : Z) :
  ge_int p i = true -> (i' <= i)%Z -> ge_int p i' = true.
Proof.
  destruct p as [| | |z]; simpl; try easy.
  rewrite !Z.leb_le. lia.
Qed.

Lemma temperature_rows_length (forecast : Forecast.t) (format : Format) :
  List.length (Temperature.rows forecast format) = 7%nat.
Proof. reflexivity. Qed.

Lemma filled_marker (b : bool) : (if b then "**" else "  ") = "**" -> b = true.
Proof. now destruct b. Qed.

(** C3: in the temperature graph of every forecast, a column that is filled
    in one row is filled in every row below it, down to and including the
    baseline.  Rows are counted from the top of the rendered graph ([r = 0]
    is the row of the high label, [r = 7] the baseline); the hypothesis that
    the scaled values are valid is not needed. *)
Theorem temperature_bars_monotone
    (forecast : Forecast.t) (format : Format) (rows : list string)
    (r r' j : nat) (row row' : string) :
  Temperature.result forecast format = Ok rows ->
  nth_error rows r = Some row ->
  nth_error rows r' = Some row' ->
  (r < r')%nat ->
  (j < List.length (Forecast.hourly forecast))%nat ->
  cell format row j = "**" ->
  cell format row' j = "**".
Proof.
  intros Hres Hr Hr' Hlt Hj Hcell.
  rewrite temperature_result in Hres.
  assert (rows = (Temperature.rows forecast format ++ [floor_row forecast format])%list)
    as -> by congruence.
  clear Hres.
  assert (r' < 8)%nat as Hr'8.
  { assert (nth_error (Temperature.rows forecast format ++ [floor_row forecast format]) r'
            <> None) as H by congruence.
    apply nth_error_Some in H. rewrite length_app, temperature_rows_length in H.
    simpl in H. lia. }
  destruct (Nat.eq_dec r' 7) as [-> | Hne].
  - rewrite nth_error_app2 in Hr' by (rewrite temperature_rows_length; lia).
    rewrite temperature_rows_length in Hr'. simpl in Hr'. injection Hr' as <-.
    destruct (floor_row_facts forecast format) as (_ & lbl & Hlen & Hstrip).
    rewrite (cell_behind_label format _ lbl _ j Hlen Hstrip).
    now apply repeat_string_column.
  - rewrite nth_error_app1 in Hr, Hr' by (rewrite temperature_rows_length; lia).
    destruct (temperature_row_at forecast format r) as (x & lbl & Hx & Hlen & _ & Hstrip);
      [lia|]. rewrite Hx in Hr. injection Hr as ->.
    destruct (temperature_row_at forecast format r') as (x' & lbl' & Hx' & Hlen' & _ & Hstrip');
      [lia|]. rewrite Hx' in Hr'. injection Hr' as ->.
    destruct (nth_error (Temperature.scaledTemps forecast) j) as [p|] eqn:Hp.
    2:{ apply nth_error_None in Hp. rewrite scaledTemps_length in Hp. lia. }
    rewrite (cell_behind_label format _ lbl _ j Hlen Hstrip) in Hcell.
    rewrite (markers_column _ _ _ _ Hp) in Hcell. apply filled_marker in Hcell.
    rewrite (cell_behind_label format _ lbl' _ j Hlen' Hstrip').
    rewrite (markers_column _ _ _ _ Hp).
    rewrite (ge_int_down p _ (7 - Z.of_nat r') Hcell); [reflexivity | lia].
Qed.

(** In the graph of 30, 40, 50 the middle column is filled in row 3 (counter
    4), hence in row 5. *)
Lemma temperature_bars_monotone_witness :
  cell tty (nth 5 (Temperature.rows three_hours tty) EmptyString) 1 = "**".
Proof.
  eapply (temperature_bars_monotone three_hours tty _ 3 5 1).
  - reflexivity.
  - reflexivity.
  - reflexivity.
  - lia.
  - simpl. lia.
  - reflexivity.
Defined.

(** ** Maxima, minima and rounding *)

Section Extrema.

Lemma gt_Fin (x y : Q) : gt (Fin x) (Fin y) = negb (Qle_bool x y).
Proof. reflexivity. Qed.

Lemma Qle_bool_false (x y : Q) : Qle_bool x y = false <-> (y < x)%Q.
Proof.
  rewrite <- not_true_iff_false, Qle_bool_iff. split.
  - apply Qnot_le_lt.
  - apply Qlt_not_le.
Qed.

Lemma max_from_Fin (qs : list Q) : forall h : Q,
  exists m : Q,
    max_from (Fin h) (map Fin qs) = Fin m
    /\ (m = h \/ In m qs)
    /\ (h <= m)%Q
    /\ forall q, In q qs -> (q <= m)%Q.
Proof.
  induction qs as [|x qs IH]; intros h.
  - exists h. simpl. repeat split; auto using Qle_refl. intros q [].
  - simpl map. cbn [max_from is_NaN]. rewrite gt_Fin.
    destruct (Qle_bool x h) eqn:E; cbn [negb].
    + apply Qle_bool_iff in E. destruct (IH h) as (m & Hm & Hin & Hh & Hall).
      exists m. repeat split; auto.
      * destruct Hin; [now left | right; now right].
      * intros q [<- | Hq]; [now apply Qle_trans with h | auto].
    + apply Qle_bool_false in E. destruct (IH x) as (m & Hm & Hin & Hx & Hall).
      exists m. repeat split; auto.
      * right. destruct Hin as [-> | Hin]; [now left | now right].
      * apply Qle_trans with x; [now apply Qlt_le_weak | exact Hx].
      * intros q [<- | Hq]; auto.
Qed.

Lemma min_from_Fin (qs : list Q) : forall l : Q,
  exists m : Q,
    min_from (Fin l) (map Fin qs) = Fin m
    /\ (m = l \/ In m qs)
    /\ (m <= l)%Q
    /\ forall q, In q qs -> (m <= q)%Q.
Proof.
  induction qs as [|x qs IH]; intros l.
  - exists l. simpl. repeat split; auto using Qle_refl. intros q [].
  - simpl map. cbn [min_from is_NaN]. rewrite gt_Fin.
    destruct (Qle_bool l x) eqn:E; cbn [negb].
    + apply Qle_bool_iff in E. destruct (IH l) as (m & Hm & Hin & Hl & Hall).
      exists m. repeat split; auto.
      * destruct Hin; [now left | right; now right].
      * intros q [<- | Hq]; [now apply Qle_trans with l | auto].
    + apply Qle_bool_false in E. destruct (IH x) as (m & Hm & Hin & Hx & Hall).
      exists m. repeat split; auto.
      * right. destruct Hin as [-> | Hin]; [now left | now right].
      * apply Qle_trans with x; [exact Hx | now apply Qlt_le_weak].
      * intros q [<- | Hq]; auto.
Qed.

(** [Math.max] and [Math.min] of a non-empty series of finite numbers are
    its greatest and its least element. *)
Lemma Math_max_finite (q : Q) (qs : list Q) :
  exists m : Q, Math_max (map Fin (q :: qs)) = Fin m /\ is_maximum m (q :: qs).
Proof.
  destruct (max_from_Fin qs q) as (m & Hm & Hin & Hq & Hall).
  exists m. split; [exact Hm|]. split.
  - destruct Hin as [-> | Hin]; [now left | now right].
  - intros x [<- | Hx]; auto.
Qed.

Lemma Math_min_finite (q : Q) (qs : list Q) :
  exists m : Q, Math_min (map Fin (q :: qs)) = Fin m /\ is_minimum m (q :: qs).
Proof.
  destruct (min_from_Fin qs q) as (m & Hm & Hin & Hq & Hall).
  exists m. split; [exact Hm|]. split.
  - destruct Hin as [-> | Hin]; [now left | now right].
  - intros x [<- | Hx]; auto.
Qed.

Lemma maximum_unique (a b : Q) (qs : list Q) :
  is_maximum a qs -> is_maximum b qs -> (a == b)%Q.
Proof. intros [Ha Ha'] [Hb Hb']. apply Qle_antisym; auto. Qed.




End Extrema.

(** ** Scaling of the temperatures *)





(** The example of the specification: 30, 40 and 50 are scaled to 0, 4 and 7. *)
Example scaledTemps_30_40_50 :
  Temperature.scaledTemps three_hours = [Fin 0%Z; Fin 4%Z; Fin 7%Z]
  /\ map (fun t => round_half_up ((t - 30) / (50 - 30) * 7)%Q) [30; 40; 50]%Q = [0; 4; 7]%Z.
Proof. split; reflexivity. Qed.

(** ** The uniform series *)

Lemma scaleTemperature_uniform (mn mx t : Q) :
  (mx == mn)%Q -> (t == mn)%Q ->
  Temperature.scaleTemperature (Fin mn) (Fin mx) (Fin t) = NaN.
Proof.
  intros Hmx Ht. unfold Temperature.scaleTemperature. cbn [sub div].
  assert (Qeq_bool (mx - mn) 0 = true) as ->.
  { apply Qeq_bool_iff. rewrite Hmx. ring. }
  assert ((t - mn ?= 0)%Q = Eq) as ->.
  { apply Qeq_alt. rewrite Ht. ring. }
  reflexivity.
Qed.

(** Whenever all feels-like values are equal, every scaled value is NaN:
    the program divides zero by zero. *)
Lemma uniform_series_scales_to_NaN (forecast : Forecast.t) (q : Q) (qs : list Q) :
  Temperature.temps forecast = map Fin (q :: qs) ->
  (forall x, In x qs -> (x == q)%Q) ->
  Temperature.scaledTemps forecast = map (fun _ => NaN) (q :: qs).
Proof.
  intros Htemps Hall.
  assert (forall x, In x (q :: qs) -> (x == q)%Q) as Hall'.
  { intros x [<- | Hx]; [reflexivity | auto]. }
  destruct (Math_max_finite q qs) as (mx & Hmx & Hmx' & _).
  destruct (Math_min_finite q qs) as (mn & Hmn & Hmn' & _).
  unfold Temperature.scaledTemps. rewrite Htemps, Hmx, Hmn, map_map.
  apply map_ext_in. intros t Ht.
  apply scaleTemperature_uniform.
  - now rewrite (Hall' mx Hmx'), (Hall' mn Hmn').
  - now rewrite (Hall' t Ht), (Hall' mn Hmn').
Qed.

(** C9 fails on the program: for the series 50, 50 the value that decides
    whether a column is filled is NaN, and every row of the graph above the
    baseline is blank. *)
Theorem uniform_temperatures_scale_to_NaN :
  Temperature.scaledTemps uniform_hours = [NaN; NaN]
  /\ Temperature.rows uniform_hours tty =
       (bold "  H 50F  " tty ++ "    ") :: List.repeat (PREFIX ++ "    ") 6.
Proof. split; reflexivity. Qed.

(** ** The report never throws *)

(** C10: for every forecast, the empty one included, and both formats,
    [render] returns a string and so does the temperature renderer; the only
    operation of the renderers that can throw, [repeat], gets a count that
    is a length.  The two other renderers are total functions. *)
Theorem render_total (forecast : Forecast.t) (format : Format) :
  exists report graph : string,
    renderTemperatureGraph forecast format = Ok graph
    /\ render forecast format = Ok report.
Proof.
  unfold render, renderTemperatureGraph. rewrite temperature_result.
  cbn [bind]. eexists; eexists. split; reflexivity.
Qed.

(** With no hourly entry, the maxima and minima are the infinities, and the
    graphs are still drawn. *)
Example render_empty_hourly :
  Math_max (Temperature.temps (hours 0)) = NegInfinity
  /\ Math_min (Temperature.temps (hours 0)) = PosInfinity
  /\ renderTimeOffsets (hours 0) tty = PREFIX
  /\ renderTemperatureGraph (hours 0) tty =
       Ok (join nl ([bold "finityF  " tty] ++ List.repeat PREFIX 6 ++ [bold "finityF  " tty]))
  /\ renderPrecipitationGraph (hours 0) tty =
       join nl (List.repeat (PREFIX ++ cyan EmptyString tty) 5).
Proof. repeat split; reflexivity. Qed.

(** ** The time axis *)

Lemma contains_occursb (t s : string) : contains t s -> occursb s t = true.
Proof.
  intros (before & after & ->). induction before as [|c before IH].
  - change (EmptyString ++ s ++ after) with (s ++ after).
    assert (Strip.starts_with s (s ++ after) = true) as H.
    { clear. induction s as [|a s IH]; [reflexivity|].
      simpl. now rewrite Ascii.eqb_refl, IH. }
    destruct (s ++ after); cbn [occursb]; now rewrite H.
  - change (String c before ++ s ++ after) with (String c (before ++ s ++ after)).
    cbn [occursb]. rewrite IH. apply orb_true_r.
Qed.

(** C5 fails on the program: with two columns the cursor jumps from column 0
    over the last column, and the label of the final offset, "1h", is
    never printed. *)
Theorem time_axis_two_columns :
  renderTimeOffsets two_hours tty = PREFIX ++ bold "0h  " tty
  /\ renderTimeOffsets two_hours html = PREFIX ++ bold "0h  " html
  /\ ~ contains (renderTimeOffsets two_hours tty) (bold "1h" tty)
  /\ ~ contains (renderTimeOffsets two_hours html) (bold "1h" html).
Proof.
  split; [reflexivity|]. split; [reflexivity|].
  split; intros H; apply contains_occursb in H; discriminate H.
Qed.

(** The example of the specification: over 25 columns the labels are 0h, 6h,
    12h, 18h and 24h, each in bold, with blanks between them. *)
Example time_axis_25_columns (format : Format) :
  renderTimeOffsets (hours 25) format =
  PREFIX ++ bold "0h  " format ++ "        "
         ++ bold "6h  " format ++ "        "
         ++ bold "12h " format ++ "        "
         ++ bold "18h " format ++ "        "
         ++ bold "24h" format.
Proof. destruct format; reflexivity. Qed.

(** Up to 25 columns, the label of the final offset is printed unless the
    number of columns is 2, 8, 14 or 20. *)
Example time_axis_final_label (format : Format) :
  forallb (fun n =>
             Bool.eqb (occursb (bold (ToString (Fin (Z.of_nat (n - 1))) ++ "h") format)
                               (renderTimeOffsets (hours n) format))
                      (negb (n mod 6 =? 2)%nat))
          (seq 1 25) = true.
Proof. destruct format; vm_compute; reflexivity. Qed.

(** ** Widths of the chart lines *)

Section Widths.

Variable forecast : Forecast.t.
Variable format : Format.

Local Abbreviation n := (List.length (Forecast.hourly forecast)).

Lemma scaledPrecips_length : List.length (scaledPrecips forecast) = n.
Proof. unfold scaledPrecips, probabilities. now rewrite !length_map. Qed.

Lemma strip_bold_plain (s : string) :
  all_chars plain s = true -> strip_decoration format (bold s format) = s.
Proof.
  intros H. rewrite <- (append_nil_r (bold s format)), strip_decoration_bold.
  now rewrite (strip_plain_all _ _ H), strip_decoration_empty, append_nil_r.
Qed.

Lemma strip_cyan_plain (s : string) :
  all_chars plain s = true -> strip_decoration format (cyan s format) = s.
Proof.
  intros H. rewrite <- (append_nil_r (cyan s format)), strip_decoration_cyan.
  now rewrite (strip_plain_all _ _ H), strip_decoration_empty, append_nil_r.
Qed.

Lemma precipitation_label_facts (a : number) :
  String.length (Precipitation.label a) = 9%nat
  /\ all_chars plain (Precipitation.label a) = true.
Proof.
  split; [apply (label_length "    R " "%  ") | apply (label_plain "    R " "%  ")];
    simpl; auto; lia.
Qed.

(** A precipitation row without its decoration: a 9-character label, blank
    or not, and the markers of the row. *)
Lemma precipitation_row_facts (i : Z) :
  all_chars inline (Precipitation.row forecast format i) = true
  /\ exists lbl : string,
       String.length lbl = 9%nat
       /\ strip_decoration format (Precipitation.row forecast format i)
          = lbl ++ markers (scaledPrecips forecast) i.
Proof.
  unfold Precipitation.row. fold (probabilities forecast). fold (scaledPrecips forecast).
  cbv zeta.
  destruct (precipitation_label_facts (Math_max (probabilities forecast))) as [Hlen Hplain].
  pose proof (markers_plain (scaledPrecips forecast) i) as Hm.
  destruct (eq_int _ i).
  - split.
    + rewrite all_chars_append, !inline_cyan, inline_bold.
      now rewrite (plain_inline _ Hplain), (plain_inline _ Hm).
    + eexists. split; [exact Hlen|].
      rewrite strip_decoration_cyan, strip_bold_plain, strip_cyan_plain; auto.
  - split.
    + rewrite all_chars_append, inline_cyan. now rewrite (plain_inline _ Hm).
    + exists PREFIX. split; [reflexivity|].
      rewrite strip_plain by reflexivity. now rewrite strip_cyan_plain.
Qed.

Lemma precipitation_row_width (i : Z) :
  String.length (strip_decoration format (Precipitation.row forecast format i))
  = (9 + 2 * n)%nat.
Proof.
  destruct (precipitation_row_facts i) as (_ & lbl & Hlen & ->).
  now rewrite length_append, Hlen, markers_length, scaledPrecips_length.
Qed.

Lemma temperature_row_width (row : string) :
  In row (Temperature.rows forecast format ++ [floor_row forecast format])%list ->
  all_chars inline row = true
  /\ String.length (strip_decoration format row) = (9 + 2 * n)%nat.
Proof.
  intros Hin. apply in_app_or in Hin as [Hin | [<- | []]].
  - apply In_nth_error in Hin as [r Hr].
    assert (r < 7)%nat as Hr7.
    { rewrite <- (temperature_rows_length forecast format).
      apply nth_error_Some. congruence. }
    destruct (temperature_row_at forecast format r Hr7) as (x & lbl & Hx & Hlen & Hinl & Hs).
    assert (x = row) as -> by congruence.
    split; [exact Hinl|].
    now rewrite Hs, length_append, Hlen, markers_length, scaledTemps_length.
  - destruct (floor_row_facts forecast format) as (Hinl & lbl & Hlen & Hs).
    split; [exact Hinl|].
    rewrite Hs, length_append, Hlen, length_repeat_string. simpl. fold n. lia.
Qed.

Lemma time_axis_widths :
  forallb (fun k => String.length (strip_decoration format (TimeOffsets.loop format k 0 PREFIX))
                    =? time_axis_width k)%nat
          (seq 0 26) = true.
Proof. destruct format; vm_compute; reflexivity. Qed.

Lemma time_axis_width_upto_25 :
  (n <= 25)%nat ->
  String.length (strip_decoration format (renderTimeOffsets forecast format))
  = time_axis_width n.
Proof.
  intros Hn. pose proof time_axis_widths as H. rewrite forallb_forall in H.
  apply Nat.eqb_eq. apply (H n). apply in_seq. lia.
Qed.

End Widths.

(** ** The lines of the two graphs *)

Section GraphLines.

Variable forecast : Forecast.t.
Variable format : Format.

Lemma section_lines_join (row : string) (rows : list string) :
  row <> EmptyString ->
  forallb (all_chars inline) (row :: rows) = true ->
  section_lines (join nl (row :: rows)) = row :: rows.
Proof.
  intros Hrow Hinl. destruct row as [|c row]; [congruence|].
  assert (exists s, join nl (String c row :: rows) = String c s) as [s E]
      by (destruct rows; simpl; eauto).
  unfold section_lines. rewrite E, <- E. now apply lines_join.
Qed.

Lemma wide_row_nonempty (row : string) (k : nat) :
  String.length (strip_decoration format row) = (9 + k)%nat -> row <> EmptyString.
Proof. intros H ->. discriminate H. Qed.

(** The temperature graph has the seven rows of the loop and the baseline. *)
Lemma temperature_graph_lines :
  exists graph : string,
    renderTemperatureGraph forecast format = Ok graph
    /\ section_lines graph
       = (Temperature.rows forecast format ++ [floor_row forecast format])%list.
Proof.
  unfold renderTemperatureGraph. rewrite temperature_result. cbn [bind].
  eexists. split; [reflexivity|].
  pose proof (temperature_row_width forecast format) as Hw.
  rewrite temperature_rows_unfold in *. cbn [app map] in *.
  apply section_lines_join.
  - apply (wide_row_nonempty _ (2 * List.length (Forecast.hourly forecast))).
    apply Hw. now left.
  - apply forallb_forall. intros row Hrow. now apply Hw.
Qed.

Lemma precipitation_rows_unfold :
  Precipitation.rows forecast format
  = map (Precipitation.row forecast format) [1; 2; 3; 4; 5]%Z.
Proof. reflexivity. Qed.

(** The precipitation graph is empty when the maximum probability is zero,
    and has the five rows of the loop otherwise. *)
Lemma precipitation_graph_lines :
  section_lines (renderPrecipitationGraph forecast format)
  = if is_zero (Math_max (probabilities forecast)) then []
    else Precipitation.rows forecast format.
Proof.
  unfold renderPrecipitationGraph. fold (probabilities forecast).
  destruct (is_zero _); [reflexivity|].
  rewrite precipitation_rows_unfold. cbn [map].
  apply section_lines_join.
  - apply (wide_row_nonempty _ (2 * List.length (Forecast.hourly forecast))).
    apply precipitation_row_width.
  - apply forallb_forall. intros row Hrow.
    change (In row (map (Precipitation.row forecast format) [1; 2; 3; 4; 5]%Z)) in Hrow.
    apply in_map_iff in Hrow as (i & <- & _). apply precipitation_row_facts.
Qed.

End GraphLines.

(** C6, as the specification states it, fails: over 25 columns every graph
    row has 59 characters without decoration, and the time axis has 60. *)
Lemma time_axis_wider_than_graphs :
  List.length (Forecast.hourly (hours 25)) = 25%nat
  /\ String.length (strip_decoration tty (renderTimeOffsets (hours 25) tty)) = 60%nat
  /\ String.length (strip_decoration tty (floor_row (hours 25) tty)) = (9 + 2 * 25)%nat
  /\ (60 <> 9 + 2 * 25)%nat.
Proof. repeat split; try reflexivity. discriminate. Qed.

(** C6 (amended): for every forecast with [n] hourly entries, [0 < n <= 25],
    after stripping the decoration every line of the temperature graph (the
    baseline included) and every line of the precipitation graph has
    [9 + 2 n] characters; the time axis has [9 + 2 n] characters when the
    final offset has one digit ([n <= 10]), and one character more when the
    final label has two digits and is printed ([n > 10], [n] not 14 or 20). *)
Theorem chart_line_widths (forecast : Forecast.t) (format : Format) (n : nat) :
  n = List.length (Forecast.hourly forecast) ->
  (0 < n <= 25)%nat ->
  (exists graph : string,
      renderTemperatureGraph forecast format = Ok graph
      /\ Forall (fun row => String.length (strip_decoration format row) = (9 + 2 * n)%nat)
                (section_lines graph))
  /\ Forall (fun row => String.length (strip_decoration format row) = (9 + 2 * n)%nat)
            (section_lines (renderPrecipitationGraph forecast format))
  /\ ((n <= 10)%nat ->
      String.length (strip_decoration format (renderTimeOffsets forecast format))
      = (9 + 2 * n)%nat)
  /\ ((10 < n)%nat -> (n mod 6 <> 2)%nat ->
      String.length (strip_decoration format (renderTimeOffsets forecast format))
      = (9 + 2 * n + 1)%nat).
Proof.
  intros -> Hn. split; [|split; [|split]].
  - destruct (temperature_graph_lines forecast format) as (graph & Hgraph & Hlines).
    exists graph. split; [exact Hgraph|]. rewrite Hlines.
    apply Forall_forall. intros row Hrow. now apply temperature_row_width.
  - rewrite precipitation_graph_lines. destruct (is_zero _); [constructor|].
    apply Forall_forall. intros row Hrow.
    apply in_map_iff in Hrow as (i & <- & _). apply precipitation_row_width.
  - intros H10. rewrite time_axis_width_upto_25 by lia. unfold time_axis_width.
    destruct (Nat.ltb_spec 10 (List.length (Forecast.hourly forecast))); [lia|].
    simpl. lia.
  - intros H10 Hmod. rewrite time_axis_width_upto_25 by lia. unfold time_axis_width.
    destruct (Nat.ltb_spec 10 (List.length (Forecast.hourly forecast))); [|lia].
    destruct (Nat.eqb_spec (List.length (Forecast.hourly forecast) mod 6) 2); [lia|].
    reflexivity.
Qed.

(** The widths of the charts over three columns. *)
Lemma chart_line_widths_witness :
  (exists graph : string,
      renderTemperatureGraph three_hours tty = Ok graph
      /\ Forall (fun row => String.length (strip_decoration tty row) = (9 + 2 * 3)%nat)
                (section_lines graph))
  /\ Forall (fun row => String.length (strip_decoration tty row) = (9 + 2 * 3)%nat)
            (section_lines (renderPrecipitationGraph three_hours tty))
  /\ ((3 <= 10)%nat ->
      String.length (strip_decoration tty (renderTimeOffsets three_hours tty))
      = (9 + 2 * 3)%nat)
  /\ ((10 < 3)%nat -> (3 mod 6 <> 2)%nat ->
      String.length (strip_decoration tty (renderTimeOffsets three_hours tty))
      = (9 + 2 * 3 + 1)%nat).
Proof. apply (chart_line_widths three_hours tty 3); [reflexivity | lia]. Defined.

(** ** The label of the precipitation graph *)


Lemma precipitation_row_prefix (forecast : Forecast.t) (format : Format) (i : Z) :
  Precipitation.row forecast format i =
  (if eq_int (Precipitation.scalePrecipitation (Math_max (probabilities forecast))) i
   then cyan (bold (Precipitation.label (Math_max (probabilities forecast))) format) format
   else PREFIX)
  ++ cyan (markers (scaledPrecips forecast) i) format.
Proof. reflexivity. Qed.





(** ** The normalizer *)

Section Normalizer.

Import DarkSky.

Lemma bind_Ok_inv {A B : Type} (c : except A) (k : A -> except B) (b : B) :
  bind c k = Ok b -> exists a, c = Ok a /\ k a = Ok b.
Proof. destruct c as [a|e]; simpl; [eauto | discriminate]. Qed.

Lemma bind_Throw_inv {A B : Type} (c : except A) (k : A -> except B) (e : error) :
  bind c k = Throw e -> c = Throw e \/ exists a, c = Ok a /\ k a = Throw e.
Proof. destruct c as [a|e']; simpl; [eauto | intros [= ->]; now left]. Qed.

Lemma get_present (v : value) (key : string) :
  present v = true -> get v key = Ok (field v key).
Proof. now destruct v. Qed.

Lemma get_absent (v : value) (key : string) :
  present v = false -> get v key = Throw TypeError.
Proof. now destruct v. Qed.

Lemma get_Ok_inv (v x : value) (key : string) :
  get v key = Ok x -> present v = true /\ x = field v key.
Proof. destruct v; simpl; intros [= <-] || discriminate; auto. Qed.

Lemma get_Throw_inv (v : value) (key : string) (e : error) :
  get v key = Throw e -> e = TypeError.
Proof. destruct v; simpl; congruence. Qed.

Lemma mapM_Throw_inv (f : value -> except value) (l : list value) (e : error) :
  (forall x e', f x = Throw e' -> e' = TypeError) ->
  mapM f l = Throw e -> e = TypeError.
Proof.
  intros Hf. induction l as [|x l IH]; simpl; [discriminate|].
  destruct (f x) eqn:E; cbn [bind]; [|intros [= <-]; eauto].
  destruct (mapM f l); cbn [bind]; [discriminate | intros [= <-]; auto].
Qed.

Lemma array_map_Throw_inv (v : value) (f : value -> except value) (e : error) :
  (forall x e', f x = Throw e' -> e' = TypeError) ->
  array_map v f = Throw e -> e = TypeError.
Proof.
  intros Hf. destruct v; simpl; try congruence.
  destruct (mapM f items) eqn:E; cbn [bind]; [discriminate|].
  intros [= <-]. eapply mapM_Throw_inv; eauto.
Qed.

Lemma slice_first_Throw_inv (v : value) (k : nat) (e : error) :
  slice_first v k = Throw e -> e = TypeError.
Proof. destruct v; simpl; congruence. Qed.

Lemma transformHour_Throw_inv (h : value) (e : error) :
  transformHour h = Throw e -> e = TypeError.
Proof.
  unfold transformHour. intros H.
  repeat (apply bind_Throw_inv in H as [H | (? & _ & H)];
          [now apply get_Throw_inv in H|]).
  discriminate H.
Qed.

(** The normalizer throws nothing but the TypeError of a failed read. *)
Lemma transform_Throw_inv (data : value) (e : error) :
  transformDarkSkyForecast data = Throw e -> e = TypeError.
Proof.
  unfold transformDarkSkyForecast. intros H.
  apply bind_Throw_inv in H as [H | (alerts_v & _ & H)];
    [now apply get_Throw_inv in H|].
  apply bind_Throw_inv in H as [H | (alerts & _ & H)].
  { destruct (truthy alerts_v); [|discriminate H].
    apply bind_Throw_inv in H as [H | (? & _ & H)]; [now apply get_Throw_inv in H|].
    apply array_map_Throw_inv in H; [exact H|]. intros a e'. apply get_Throw_inv. }
  do 10 (apply bind_Throw_inv in H as [H | (? & _ & H)];
         [now apply get_Throw_inv in H|]).
  apply bind_Throw_inv in H as [H | (? & _ & H)];
    [now apply slice_first_Throw_inv in H|].
  apply bind_Throw_inv in H as [H | (? & _ & H)]; [|discriminate H].
  apply array_map_Throw_inv in H; [exact H|]. apply transformHour_Throw_inv.
Qed.

(** When the normalizer returns, the blocks it reads are there. *)
Lemma transform_Ok_inv (data forecast : value) :
  transformDarkSkyForecast data = Ok forecast ->
  present (field data "currently") = true
  /\ present (field data "hourly") = true
  /\ present (field (field data "hourly") "data") = true.
Proof.
  unfold transformDarkSkyForecast. intros H.
  apply bind_Ok_inv in H as (alerts_v & _ & H).
  apply bind_Ok_inv in H as (alerts & _ & H).
  apply bind_Ok_inv in H as (currently & Hc & H). apply get_Ok_inv in Hc as [_ ->].
  apply bind_Ok_inv in H as (temperature & Ht & H). apply get_Ok_inv in Ht as [Hcur _].
  do 4 (apply bind_Ok_inv in H as (? & _ & H)).
  apply bind_Ok_inv in H as (hourly & Hh & H). apply get_Ok_inv in Hh as [_ ->].
  apply bind_Ok_inv in H as (summary & Hs & H). apply get_Ok_inv in Hs as [Hhr _].
  apply bind_Ok_inv in H as (hourly' & Hh' & H). apply get_Ok_inv in Hh' as [_ ->].
  apply bind_Ok_inv in H as (series & Hd & H). apply get_Ok_inv in Hd as [_ ->].
  apply bind_Ok_inv in H as (first25 & Hf & _).
  repeat split; auto.
  destruct (field (field data "hourly") "data"); try reflexivity; discriminate Hf.
Qed.

Lemma mapM_present (f : value -> except value) (g : value -> value) (l : list value) :
  (forall x, present x = true -> f x = Ok (g x)) ->
  Forall (fun x => present x = true) l ->
  mapM f l = Ok (map g l).
Proof.
  intros Hf. induction 1 as [|x l Hx _ IH]; simpl; [reflexivity|].
  now rewrite (Hf x Hx), IH.
Qed.

Lemma transformHour_present (h : value) :
  present h = true -> transformHour h = Ok (canonical_hour h).
Proof. intros H. unfold transformHour. now rewrite !get_present by exact H. Qed.

Lemma present_data (data : value) (key : string) :
  present (field data key) = true -> present data = true.
Proof. now destruct data. Qed.

End Normalizer.

(** C8 (amended): when the current-conditions block, the hourly block or
    its series is absent from the payload, the normalizer fails, and the
    error reaches the caller as it was raised (the program raises the
    TypeError of the failed read; nothing catches or retries it).  When the
    blocks are there, the hourly series is an array whose first 25 entries
    are there, and the alerts collection, if any, is an array of entries
    that are there, it returns the canonical forecast: [alerts] are the
    titles of the alerts (the empty array without an alerts collection), and
    [hourly] is made from the first 25 entries of the series. *)
Theorem transformDarkSkyForecast_spec (data : DarkSky.value) :
  (present (field data "currently") = false
   \/ present (field data "hourly") = false
   \/ present (field (field data "hourly") "data") = false ->
   DarkSky.transformDarkSkyForecast data = Throw TypeError)
  /\ (forall (entries : list DarkSky.value) (alerts : option (list DarkSky.value)),
         present (field data "currently") = true ->
         field (field data "hourly") "data" = DarkSky.Array entries ->
         Forall (fun e => present e = true) (firstn 25 entries) ->
         match alerts with
         | Some items => field data "alerts" = DarkSky.Array items
                         /\ Forall (fun a => present a = true) items
         | None => DarkSky.truthy (field data "alerts") = false
         end ->
         DarkSky.transformDarkSkyForecast data =
         Ok (DarkSky.Object
               [("alerts", DarkSky.Array match alerts with
                                         | Some items => map (fun a => field a "title") items
                                         | None => []
                                         end);
                ("temperature", field (field data "currently") "temperature");
                ("feels_like", field (field data "currently") "apparentTemperature");
                ("current_summary", field (field data "currently") "summary");
                ("future_summary", field (field data "hourly") "summary");
                ("hourly", DarkSky.Array (map canonical_hour (firstn 25 entries)))])).
Proof.
  split.
  - intros Habsent.
    destruct (DarkSky.transformDarkSkyForecast data) as [forecast|e] eqn:E.
    + apply transform_Ok_inv in E as (Hc & Hh & Hd).
      destruct Habsent as [H | [H | H]]; congruence.
    + f_equal. now apply transform_Throw_inv in E.
  - intros entries alerts Hcur Hseries Hentries Halerts.
    assert (present data = true) as Hdata by now apply present_data in Hcur.
    assert (present (field data "hourly") = true) as Hhr.
    { destruct (field data "hourly"); try discriminate Hseries; reflexivity. }
    unfold DarkSky.transformDarkSkyForecast.
    rewrite !(get_present data) by exact Hdata. cbn [bind].
    match goal with
    | |- context [if DarkSky.truthy ?v then ?yes else ?no] =>
        assert ((if DarkSky.truthy v then yes else no)
                = Ok (DarkSky.Array match alerts with
                                    | Some items => map (fun x => field x "title") items
                                    | None => []
                                    end)) as ->
    end.
    { destruct alerts as [items|].
      - destruct Halerts as [-> Hitems]. cbn [DarkSky.truthy bind DarkSky.array_map].
        rewrite (mapM_present _ (fun a => field a "title")); [reflexivity | | exact Hitems].
        intros x Hx. now apply get_present.
      - now rewrite Halerts. }
    cbn [bind].
    rewrite !(get_present (field data "currently")) by exact Hcur. cbn [bind].
    rewrite !(get_present (field data "hourly")) by exact Hhr. cbn [bind].
    rewrite Hseries. cbn [DarkSky.slice_first bind DarkSky.array_map].
    rewrite (mapM_present _ canonical_hour);
      [reflexivity | apply transformHour_present | exact Hentries].
Qed.

(** A payload without current conditions, and a payload with 49 hourly
    entries and one alert. *)
Lemma transformDarkSkyForecast_spec_witness :
  DarkSky.transformDarkSkyForecast payload_without_currently = Throw TypeError
  /\ DarkSky.transformDarkSkyForecast payload =
     Ok (DarkSky.Object
           [("alerts", DarkSky.Array [DarkSky.Text "Flood Watch"]);
            ("temperature", DarkSky.Number (Fin (4737 # 100)%Q));
            ("feels_like", DarkSky.Number (Fin (4428 # 100)%Q));
            ("current_summary", DarkSky.Text "Overcast");
            ("future_summary", DarkSky.Text "Rain tonight.");
            ("hourly", DarkSky.Array (List.repeat (canonical_hour (payload_hour 47 44 (1 # 2))) 25))]).
Proof.
  split.
  - apply (proj1 (transformDarkSkyForecast_spec payload_without_currently)).
    left. reflexivity.
  - apply (proj2 (transformDarkSkyForecast_spec payload)
                 (List.repeat (payload_hour 47 44 (1 # 2)) 49)
                 (Some [DarkSky.Object [("title", DarkSky.Text "Flood Watch")]])).
    + reflexivity.
    + reflexivity.
    + simpl. repeat constructor.
    + split; [reflexivity | repeat constructor].
Defined.

(** C8, as the specification states it, fails: a payload whose alerts
    collection is no array makes the normalizer fail although the
    current-conditions block and the hourly series are there. *)
Lemma transform_alerts_not_an_array :
  present (field payload_alerts_number "currently") = true
  /\ present (field payload_alerts_number "hourly") = true
  /\ field (field payload_alerts_number "hourly") "data" = DarkSky.Array []
  /\ DarkSky.transformDarkSkyForecast payload_alerts_number = Throw TypeError.
Proof. repeat split; reflexivity. Qed.

(** ** The sections of the report *)

Section Report.

Variable forecast : Forecast.t.
Variable format : Format.

Lemma loop_inline (k i : nat) (result : string) :
  all_chars inline result = true ->
  all_chars inline (TimeOffsets.loop format k i result) = true.
Proof.
  funelim (TimeOffsets.loop format k i result); intros Hres; [|exact Hres].
  destruct (i =? n - 1)%nat.
  - rewrite all_chars_append, inline_bold, Hres, all_chars_append.
    now rewrite (plain_inline _ (plain_ToString _)).
  - destruct (i mod 6 =? 0)%nat.
    + apply H. rewrite all_chars_append, inline_bold, Hres.
      apply plain_inline, all_chars_slice.
      now rewrite all_chars_append, plain_ToString.
    + apply H0. now rewrite all_chars_append, Hres.
Qed.

Lemma loop_extends (k i : nat) (result : string) :
  exists rest : string, TimeOffsets.loop format k i result = result ++ rest.
Proof.
  funelim (TimeOffsets.loop format k i result).
  - destruct (i =? n - 1)%nat; [eauto|].
    destruct (i mod 6 =? 0)%nat.
    + destruct H as [rest ->]. rewrite append_assoc. eauto.
    + destruct H0 as [rest ->]. rewrite append_assoc. eauto.
  - exists EmptyString. now rewrite append_nil_r.
Qed.

(** The time axis is one line. *)
Lemma time_axis_line :
  section_lines (renderTimeOffsets forecast format) = [renderTimeOffsets forecast format].
Proof.
  unfold renderTimeOffsets.
  destruct (loop_extends (List.length (Forecast.hourly forecast)) 0 PREFIX) as [rest E].
  pose proof (loop_inline (List.length (Forecast.hourly forecast)) 0 PREFIX eq_refl) as Hinl.
  rewrite E in *. apply lines_inline in Hinl. exact Hinl.
Qed.








End Report.

(** For a non-empty series of probabilities that are not negative, the
    precipitation graph is left out exactly when every probability is 0. *)
Lemma precipitation_section_empty_iff
    (forecast : Forecast.t) (format : Format) (p : Q) (ps : list Q) :
  probabilities forecast = map Fin (p :: ps) ->
  (forall x, In x (p :: ps) -> (0 <= x)%Q) ->
  section_lines (renderPrecipitationGraph forecast format) = []
  <-> forall x, In x (p :: ps) -> (x == 0)%Q.
Proof.
  intros Hprobs Hpos. rewrite precipitation_graph_lines, Hprobs.
  destruct (Math_max_finite p ps) as (mx & -> & Hin & Hmx).
  cbn [is_zero]. destruct (Qeq_bool mx 0) eqn:E.
  - apply Qeq_bool_iff in E. split; [|reflexivity].
    intros _ x Hx. apply Qle_antisym; [|now apply Hpos].
    rewrite <- E. now apply Hmx.
  - split; [discriminate|]. intros Hall. apply Hall in Hin.
    apply Qeq_bool_iff in Hin. congruence.
Qed.

(** C1 fails on the program: a forecast with no hourly entry has no
    probability other than 0, and its report still has five lines of
    precipitation graph, because the maximum of no probabilities is
    [-Infinity] and not 0. *)
Theorem empty_forecast_draws_precipitation_rows :
  Forecast.hourly (hours 0) = []
  /\ Math_max (probabilities (hours 0)) = NegInfinity
  /\ section_lines (renderPrecipitationGraph (hours 0) tty)
     = List.repeat (PREFIX ++ cyan EmptyString tty) 5
  /\ exists report : string,
       render (hours 0) tty = Ok report
       /\ lines report
          = ([EmptyString; EmptyString;
              bold "Now:     44F, Overcast" tty;
              (esc ++ "[1mLater:   Rain tonight.")%string; (esc ++ "[0m")%string;
              PREFIX;
              bold "finityF  " tty]
             ++ List.repeat PREFIX 6
             ++ [bold "finityF  " tty]
             ++ List.repeat (PREFIX ++ cyan EmptyString tty)%string 5
             ++ [EmptyString; EmptyString])%list.
Proof.
  split; [reflexivity|]. split; [reflexivity|]. split; [reflexivity|].
  eexists. split; reflexivity.
Qed.

(** * Further properties of the program *)

(** ** The range and the order of the scaled temperatures *)

Section ScalingRange.

Variable forecast : Forecast.t.
Variable qs : list Q.
Variables minT maxT : Q.

Hypothesis Htemps : Temperature.temps forecast = map Fin qs.
Hypothesis Hmin : is_minimum minT qs.
Hypothesis Hmax : is_maximum maxT qs.
Hypothesis Hrange : (minT < maxT)%Q.

(** The value that [scaleTemperature] rounds. *)
Local Abbreviation ratio t := ((t - minT) / (maxT - minT) * 7)%Q.






Lemma round_half_up_monotone (x y : Q) :
  (x <= y)%Q -> (round_half_up x <= round_half_up y)%Z.
Proof.
  intros H. unfold round_half_up. apply Qfloor_resp_le.
  apply Qplus_le_l. exact H.
Qed.




End ScalingRange.





(** ** The bars of the precipitation graph *)

Lemma precipitation_nth_row
    (forecast : Forecast.t) (format : Format) (r : nat) (row : string) :
  nth_error (section_lines (renderPrecipitationGraph forecast format)) r = Some row ->
  (r < 5)%nat /\ row = Precipitation.row forecast format (Z.of_nat (S r)).
Proof.
  rewrite precipitation_graph_lines. destruct (is_zero _); [now destruct r|].
  rewrite precipitation_rows_unfold. intros Hrow.
  do 5 (destruct r as [|r]; [injection Hrow as <-; split; [lia | reflexivity]|]).
  destruct r; discriminate Hrow.
Qed.

Lemma precipitation_cell
    (forecast : Forecast.t) (format : Format) (i : Z) (j : nat) (p : integral) :
  nth_error (scaledPrecips forecast) j = Some p ->
  cell format (Precipitation.row forecast format i) j
  = if ge_int p i then "**" else "  ".
Proof.
  intros Hp. destruct (precipitation_row_facts forecast format i) as (_ & lbl & Hlen & Hs).
  rewrite (cell_behind_label format _ lbl _ j Hlen Hs).
  now apply markers_column.
Qed.

(** X3: the bars of the precipitation graph hang from its top: a column
    that is filled in one row of the rendered graph is filled in every row
    above it. *)
Theorem precipitation_bars_hang
    (forecast : Forecast.t) (format : Format) (r r' j : nat) (row row' : string) :
  nth_error (section_lines (renderPrecipitationGraph forecast format)) r = Some row ->
  nth_error (section_lines (renderPrecipitationGraph forecast format)) r' = Some row' ->
  (r' < r)%nat ->
  (j < List.length (Forecast.hourly forecast))%nat ->
  cell format row j = "**" ->
  cell format row' j = "**".
Proof.
  intros Hr Hr' Hlt Hj Hcell.
  apply precipitation_nth_row in Hr as [_ ->].
  apply precipitation_nth_row in Hr' as [_ ->].
  destruct (nth_error (scaledPrecips forecast) j) as [p|] eqn:Hp.
  2:{ apply nth_error_None in Hp. rewrite scaledPrecips_length in Hp. lia. }
  rewrite (precipitation_cell _ _ _ _ _ Hp) in Hcell.
  rewrite (precipitation_cell _ _ _ _ _ Hp).
  apply filled_marker in Hcell.
  rewrite (ge_int_down p _ (Z.of_nat (S r')) Hcell); [reflexivity | lia].
Qed.

(** In the graph of the probabilities 0, 0.5 and 1, the second column is
    filled in the third row, hence in the first. *)
Lemma precipitation_bars_hang_witness :
  cell tty (nth 0 (Precipitation.rows three_hours tty) EmptyString) 1 = "**".
Proof.
  eapply (precipitation_bars_hang three_hours tty 2 0 1).
  - reflexivity.
  - reflexivity.
  - lia.
  - simpl. lia.
  - reflexivity.
Defined.

Section PrecipitationRange.

Variable forecast : Forecast.t.
Variable ps : list Q.

Hypothesis Hprobs : probabilities forecast = map Fin ps.

Lemma scaledPrecips_finite :
  scaledPrecips forecast = map (fun p => Fin (round_half_up (p * 5)%Q)) ps.
Proof. unfold scaledPrecips. rewrite Hprobs, map_map. reflexivity. Qed.

Lemma scaled_probability_monotone (p q : Q) :
  (p <= q)%Q -> (round_half_up (p * 5) <= round_half_up (q * 5))%Z.
Proof.
  intros H. apply round_half_up_monotone. apply Qmult_le_compat_r; [exact H | discriminate].
Qed.

Lemma Math_max_probabilities (maxP : Q) :
  is_maximum maxP ps ->
  exists mx : Q, Math_max (probabilities forecast) = Fin mx /\ (mx == maxP)%Q.
Proof.
  intros Hmax. rewrite Hprobs. destruct ps as [|p l]; [destruct Hmax as [[] _]|].
  destruct (Math_max_finite p l) as (mx & Hmx & Hmx').
  exists mx. split; [exact Hmx|]. now apply (maximum_unique _ _ (p :: l)).
Qed.

End PrecipitationRange.

(** X4: for finite probabilities between 0 and 1, every scaled probability
    is an integer from 0 to 5, and of two hours the one more likely to be
    wet never has the smaller scaled value. *)
Theorem scaled_probabilities_ordered
    (forecast : Forecast.t) (ps : list Q) (j k : nat) (pj pk : Q) :
  probabilities forecast = map Fin ps ->
  nth_error ps j = Some pj ->
  nth_error ps k = Some pk ->
  (0 <= pj)%Q -> (pj <= pk)%Q -> (pk <= 1)%Q ->
  exists zj zk : Z,
    nth_error (scaledPrecips forecast) j = Some (Fin zj)
    /\ nth_error (scaledPrecips forecast) k = Some (Fin zk)
    /\ (0 <= zj <= zk)%Z /\ (zk <= 5)%Z.
Proof.
  intros Hprobs Hj Hk H0 Hle H1.
  rewrite (scaledPrecips_finite forecast ps Hprobs).
  exists (round_half_up (pj * 5)%Q), (round_half_up (pk * 5)%Q).
  split; [now rewrite nth_error_map, Hj|]. split; [now rewrite nth_error_map, Hk|].
  pose proof (scaled_probability_monotone 0 pj H0) as B0.
  pose proof (scaled_probability_monotone pj pk Hle) as M.
  pose proof (scaled_probability_monotone pk 1 H1) as B1.
  change (round_half_up (0 * 5)%Q) with 0%Z in B0.
  change (round_half_up (1 * 5)%Q) with 5%Z in B1.
  lia.
Qed.

(** The probabilities 0.5 and 1 are scaled to 3 and 5. *)
Lemma scaled_probabilities_ordered_witness :
  exists zj zk : Z,
    nth_error (scaledPrecips three_hours) 1 = Some (Fin zj)
    /\ nth_error (scaledPrecips three_hours) 2 = Some (Fin zk)
    /\ (0 <= zj <= zk)%Z /\ (zk <= 5)%Z.
Proof.
  apply (scaled_probabilities_ordered three_hours [0; 1 # 2; 1]%Q 1 2 (1 # 2)%Q 1%Q);
    try reflexivity; discriminate.
Defined.



(** ** The labels of the graphs *)

Lemma drop_append_le (k : nat) (a b : string) :
  (k <= String.length a)%nat -> drop k (a ++ b) = drop k a ++ b.
Proof.
  revert a; induction k as [|k IH]; intros a Hk.
  - now destruct a; destruct b.
  - destruct a as [|c a]; simpl in *; [lia|]. apply IH. lia.
Qed.

Lemma take_all (k : nat) (s : string) :
  (String.length s <= k)%nat -> take k s = s.
Proof.
  revert s; induction k as [|k IH]; intros [|c s] Hk; simpl in *; try reflexivity; try lia.
  f_equal. apply IH. lia.
Qed.

(** A number of at most as many characters as the padding before it moves
    the template to the left, and nothing but padding is cut. *)
Lemma slice_last_padded (before d after : string) :
  (String.length before + String.length after = 9)%nat ->
  (String.length d <= String.length before)%nat ->
  slice (before ++ d ++ after) (- PREFIX_LEN) None
  = drop (String.length d) before ++ d ++ after.
Proof.
  intros Hlen Hd. unfold slice, relative_index.
  change (- PREFIX_LEN <? 0)%Z with true. cbv iota.
  rewrite !length_append.
  replace (Z.to_nat (Z.max (Z.of_nat (String.length before + (String.length d + String.length after))
                            + - PREFIX_LEN) 0))
    with (String.length d) by (unfold PREFIX_LEN; rewrite length_PREFIX; lia).
  rewrite drop_append_le by exact Hd.
  apply take_all. rewrite !length_append, length_drop. lia.
Qed.

(** A number of more characters than the template has room for pushes the
    text before it out of the label. *)
Lemma slice_last_truncated (before d after : string) :
  (String.length before + String.length after = 9)%nat ->
  (String.length before <= String.length d)%nat ->
  slice (before ++ d ++ after) (- PREFIX_LEN) None
  = slice (d ++ after) (- PREFIX_LEN) None.
Proof.
  intros Hlen Hd. unfold slice, relative_index.
  change (- PREFIX_LEN <? 0)%Z with true. cbv iota.
  rewrite !length_append.
  replace (Z.to_nat (Z.max (Z.of_nat (String.length before + (String.length d + String.length after))
                            + - PREFIX_LEN) 0))
    with (String.length before + (String.length d - String.length before))%nat
    by (unfold PREFIX_LEN; rewrite length_PREFIX; lia).
  replace (Z.to_nat (Z.max (Z.of_nat (String.length d + String.length after) + - PREFIX_LEN) 0))
    with (String.length d - String.length before)%nat
    by (unfold PREFIX_LEN; rewrite length_PREFIX; lia).
  rewrite drop_add, drop_append. f_equal. lia.
Qed.

Lemma short_decimals :
  forallb (fun k => Nat.leb (String.length (ToString (Fin (Z.of_nat k - 999)%Z))) 4)
          (seq 0 (11 * 1000 - 1)) = true.
Proof. vm_compute. reflexivity. Qed.

Lemma short_decimal (z : Z) :
  (-999 <= z <= 9999)%Z -> (String.length (ToString (Fin z)) <= 4)%nat.
Proof.
  intros Hz. pose proof short_decimals as H. rewrite forallb_forall in H.
  specialize (H (Z.to_nat (z + 999))). rewrite Z2Nat.id in H by lia.
  replace (z + 999 - 999)%Z with z in H by lia.
  apply Nat.leb_le, H, in_seq. simpl. lia.
Qed.

Lemma padding_before_tag (k : nat) (tag : ascii) :
  (k <= 4)%nat ->
  drop k (String " " (String " " (String " " (String " " (String tag " ")))))
  = repeat_string " " (4 - k) ++ String tag " ".
Proof.
  intros Hk. do 5 (destruct k as [|k]; [reflexivity|]). lia.
Qed.

(** X6: when a temperature rounds to an integer from -999 to 9999, its
    label is the tag, the number and the unit, moved to the right end of the
    9-character prefix: "H <n>F  " for the high label and "L <n>F  " for the
    low label, after [4 - length n] spaces. *)
Theorem temperature_labels_padded (t : number) (z : Z) :
  Math_round t = Fin z ->
  (-999 <= z <= 9999)%Z ->
  let padding := repeat_string " " (4 - String.length (ToString (Fin z))) in
  Temperature.high_label t = padding ++ "H " ++ ToString (Fin z) ++ "F  "
  /\ Temperature.low_label t = padding ++ "L " ++ ToString (Fin z) ++ "F  ".
Proof.
  intros Hround Hz padding. subst padding.
  pose proof (short_decimal z Hz) as Hshort.
  unfold Temperature.high_label, Temperature.low_label. rewrite Hround.
  rewrite !slice_last_padded by (cbn [String.length]; lia).
  rewrite !padding_before_tag by exact Hshort.
  now rewrite !append_assoc.
Qed.

(** A maximum of 49.6 degrees is labelled "  H 50F  ". *)
Lemma temperature_labels_padded_witness :
  let padding := repeat_string " " (4 - String.length (ToString (Fin 50%Z))) in
  Temperature.high_label (Fin (496 # 10)%Q) = padding ++ "H " ++ ToString (Fin 50%Z) ++ "F  "
  /\ Temperature.low_label (Fin (496 # 10)%Q) = padding ++ "L " ++ ToString (Fin 50%Z) ++ "F  ".
Proof.
  apply (temperature_labels_padded (Fin (496 # 10)%Q) 50); [reflexivity | lia].
Defined.

(** X7: when the rounded temperature takes six characters or more, as the
    infinite maximum and minimum of an empty series do, the label loses its
    tag: it is made of the last characters of the number and the unit. *)
Theorem temperature_labels_truncated (t : number) :
  (6 <= String.length (ToString (Math_round t)))%nat ->
  Temperature.high_label t = slice (ToString (Math_round t) ++ "F  ") (- PREFIX_LEN) None
  /\ Temperature.low_label t = Temperature.high_label t.
Proof.
  intros Hlong. unfold Temperature.high_label, Temperature.low_label.
  now rewrite !slice_last_truncated by (cbn [String.length]; lia).
Qed.

(** The maximum of an empty series is labelled "finityF  ". *)
Lemma temperature_labels_truncated_witness :
  Temperature.high_label NegInfinity
  = slice (ToString (Math_round NegInfinity) ++ "F  ") (- PREFIX_LEN) None
  /\ Temperature.low_label NegInfinity = Temperature.high_label NegInfinity.
Proof. apply (temperature_labels_truncated NegInfinity). simpl. lia. Defined.



(** ** The final label of the time axis *)

Section FinalLabel.

Variable format : Format.

Lemma loop_done (n i : nat) (result : string) :
  (n <= i)%nat -> TimeOffsets.loop format n i result = result.
Proof.
  intros Hi. funelim (TimeOffsets.loop format n i result); [lia | reflexivity].
Qed.

(** The cursor only stands on columns that are not one past a sixth column;
    if the last column is such a column, the loop prints its label and
    stops. *)
Lemma loop_reaches_last (k i : nat) (result : string) :
  (i < k)%nat -> (i mod 6 <> 1)%nat -> (k mod 6 <> 2)%nat ->
  exists before : string,
    TimeOffsets.loop format k i result
    = before ++ bold (ToString (Fin (Z.of_nat (k - 1))) ++ "h") format.
Proof.
  funelim (TimeOffsets.loop format k i result); intros Hi Hmod Hk; [|lia].
  destruct (Nat.eqb_spec i (n - 1)) as [E | E]; [now exists result|].
  destruct (Nat.eqb_spec (i mod 6) 0) as [E6 | E6].
  - apply H; lia_mod.
  - apply H0; lia_mod.
Qed.

(** If the last column is one past a sixth column, the loop ends on the
    marker of the column before it. *)
Lemma loop_skips_last (k i : nat) (result : string) :
  (i < k)%nat -> (i mod 6 <> 1)%nat -> (k mod 6 = 2)%nat ->
  exists before : string,
    TimeOffsets.loop format k i result
    = before ++ bold (TimeOffsets.marker (k - 2)) format.
Proof.
  funelim (TimeOffsets.loop format k i result); intros Hi Hmod Hk; [|lia].
  destruct (Nat.eqb_spec i (n - 1)) as [E | E]; [lia_mod|].
  destruct (Nat.eqb_spec (i mod 6) 0) as [E6 | E6].
  - destruct (Nat.eq_dec (i + 1 + 1) n) as [En | En].
    + rewrite loop_done by lia. exists result. do 3 f_equal. lia.
    + apply H; lia_mod.
  - apply H0; lia_mod.
Qed.

End FinalLabel.

(** X9: for any number [n > 0] of hourly entries, the time axis ends with
    the bold label of the final offset [n - 1] unless [n mod 6 = 2]; in that
    case the cursor jumps over the last column and the axis ends with the
    marker of the offset [n - 2]. *)
Theorem time_axis_end (forecast : Forecast.t) (format : Format) (n : nat) :
  n = List.length (Forecast.hourly forecast) ->
  (0 < n)%nat ->
  exists before : string,
    renderTimeOffsets forecast format
    = before ++ (if (n mod 6 =? 2)%nat
                 then bold (TimeOffsets.marker (n - 2)) format
                 else bold (ToString (Fin (Z.of_nat (n - 1))) ++ "h") format).
Proof.
  intros -> Hn. unfold renderTimeOffsets.
  destruct (Nat.eqb_spec (List.length (Forecast.hourly forecast) mod 6) 2) as [E | E].
  - apply loop_skips_last; [exact Hn | discriminate | exact E].
  - apply loop_reaches_last; [exact Hn | discriminate | exact E].
Qed.

(** Over three columns the time axis ends with the bold "2h". *)
Lemma time_axis_end_witness :
  exists before : string,
    renderTimeOffsets three_hours tty
    = before ++ (if (3 mod 6 =? 2)%nat
                 then bold (TimeOffsets.marker (3 - 2)) tty
                 else bold (ToString (Fin (Z.of_nat (3 - 1))) ++ "h") tty).
Proof. apply (time_axis_end three_hours tty 3); [reflexivity | lia]. Defined.

(** ** The charts in the two formats *)

Section FormatIndependence.

Variable forecast : Forecast.t.

Lemma temperature_lines_stripped (format : Format) :
  map (strip_decoration format)
      (Temperature.rows forecast format ++ [floor_row forecast format])
  = ((Temperature.high_label (Math_max (Temperature.temps forecast))
        ++ markers (Temperature.scaledTemps forecast) 7)%string
       :: map (fun i => PREFIX ++ markers (Temperature.scaledTemps forecast) i)%string
              [6; 5; 4; 3; 2; 1]%Z
       ++ [(Temperature.low_label (Math_min (Temperature.temps forecast))
              ++ repeat_string "**" (List.length (Forecast.hourly forecast)))%string])%list.
Proof.
  rewrite temperature_rows_unfold. unfold floor_row. cbn [map app].
  destruct (high_label_facts (Math_max (Temperature.temps forecast))) as [_ Hhigh].
  destruct (low_label_facts (Math_min (Temperature.temps forecast))) as [_ Hlow].
  assert (all_chars plain (repeat_string "**" (List.length (Forecast.hourly forecast))) = true)
    as Hfloor by now apply all_chars_repeat_string.
  rewrite !strip_decoration_bold.
  rewrite !(strip_plain format PREFIX) by reflexivity.
  rewrite !(strip_plain_all format _ (markers_plain _ _)).
  now rewrite (strip_plain_all format _ Hhigh), (strip_plain_all format _ Hlow),
    (strip_plain_all format _ Hfloor).
Qed.

Lemma precipitation_row_stripped (format : Format) (i : Z) :
  strip_decoration format (Precipitation.row forecast format i)
  = (if eq_int (Precipitation.scalePrecipitation (Math_max (probabilities forecast))) i
     then Precipitation.label (Math_max (probabilities forecast))
     else PREFIX)
    ++ markers (scaledPrecips forecast) i.
Proof.
  rewrite precipitation_row_prefix.
  destruct (precipitation_label_facts (Math_max (probabilities forecast))) as [_ Hplain].
  pose proof (markers_plain (scaledPrecips forecast) i) as Hm.
  destruct (eq_int _ i).
  - rewrite strip_decoration_cyan, strip_bold_plain, strip_cyan_plain; auto.
  - rewrite strip_plain by reflexivity. now rewrite strip_cyan_plain.
Qed.

Lemma loop_unfold (format : Format) (n i : nat) (result : string) :
  TimeOffsets.loop format n i result
  = if (i <? n)%nat
    then if (i =? n - 1)%nat
         then result ++ bold (ToString (Fin (Z.of_nat (n - 1))) ++ "h") format
         else if (i mod 6 =? 0)%nat
              then TimeOffsets.loop format n (i + 1 + 1) (result ++ bold (TimeOffsets.marker i) format)
              else TimeOffsets.loop format n (i + 1) (result ++ "  ")
    else result.
Proof.
  funelim (TimeOffsets.loop format n i result).
  - destruct (Nat.ltb_spec i n); [reflexivity | lia].
  - destruct (Nat.ltb_spec i n); [lia | reflexivity].
Qed.

Lemma closed_plain (format : Format) (s : string) :
  all_chars plain s = true -> closed format s.
Proof.
  intros H x. now rewrite strip_plain, (strip_plain_all format s H).
Qed.

Lemma closed_append_bold (format : Format) (r s : string) :
  closed format r -> all_chars plain s = true ->
  closed format (r ++ bold s format)
  /\ strip_decoration format (r ++ bold s format) = strip_decoration format r ++ s.
Proof.
  intros Hr Hs.
  assert (strip_decoration format (r ++ bold s format) = strip_decoration format r ++ s) as E.
  { now rewrite Hr, strip_bold_plain. }
  split; [|exact E]. intros x.
  rewrite E, append_assoc, Hr, strip_decoration_bold, (strip_plain_all format s Hs).
  now rewrite append_assoc.
Qed.

Lemma closed_append_plain (format : Format) (r s : string) :
  closed format r -> all_chars plain s = true ->
  closed format (r ++ s)
  /\ strip_decoration format (r ++ s) = strip_decoration format r ++ s.
Proof.
  intros Hr Hs.
  assert (strip_decoration format (r ++ s) = strip_decoration format r ++ s) as E.
  { now rewrite Hr, (strip_plain_all format s Hs). }
  split; [|exact E]. intros x.
  rewrite E, append_assoc, Hr, strip_plain by exact Hs.
  now rewrite append_assoc.
Qed.

Lemma marker_plain (i : nat) : all_chars plain (TimeOffsets.marker i) = true.
Proof.
  apply all_chars_slice. now rewrite all_chars_append, plain_ToString.
Qed.

Lemma final_label_plain (n : nat) :
  all_chars plain (ToString (Fin (Z.of_nat n)) ++ "h") = true.
Proof. now rewrite all_chars_append, plain_ToString. Qed.

Lemma loop_stripped_alike (fuel : nat) : forall (n i : nat) (r1 r2 : string),
  (n - i <= fuel)%nat ->
  closed tty r1 -> closed html r2 ->
  strip_decoration tty r1 = strip_decoration html r2 ->
  strip_decoration tty (TimeOffsets.loop tty n i r1)
  = strip_decoration html (TimeOffsets.loop html n i r2).
Proof.
  induction fuel as [|fuel IH]; intros n i r1 r2 Hfuel H1 H2 E;
    rewrite (loop_unfold tty), (loop_unfold html);
    destruct (Nat.ltb_spec i n) as [Hi | Hi]; try exact E; try lia.
  destruct (i =? n - 1)%nat.
  - destruct (closed_append_bold tty r1 _ H1 (final_label_plain (n - 1))) as [_ ->].
    destruct (closed_append_bold html r2 _ H2 (final_label_plain (n - 1))) as [_ ->].
    now rewrite E.
  - destruct (i mod 6 =? 0)%nat.
    + destruct (closed_append_bold tty r1 _ H1 (marker_plain i)) as [C1 E1].
      destruct (closed_append_bold html r2 _ H2 (marker_plain i)) as [C2 E2].
      apply IH; [lia | exact C1 | exact C2 | now rewrite E1, E2, E].
    + destruct (closed_append_plain tty r1 "  " H1 eq_refl) as [C1 E1].
      destruct (closed_append_plain html r2 "  " H2 eq_refl) as [C2 E2].
      apply IH; [lia | exact C1 | exact C2 | now rewrite E1, E2, E].
Qed.

End FormatIndependence.

(** X10: the format selects the decoration only: without their decoration,
    the time axis, the lines of the temperature graph and the lines of the
    precipitation graph are the same texts in the terminal format and in the
    HTML format, for every forecast. *)
Theorem charts_alike_in_both_formats (forecast : Forecast.t) :
  strip_decoration tty (renderTimeOffsets forecast tty)
  = strip_decoration html (renderTimeOffsets forecast html)
  /\ (exists on_tty on_html : string,
         renderTemperatureGraph forecast tty = Ok on_tty
         /\ renderTemperatureGraph forecast html = Ok on_html
         /\ map (strip_decoration tty) (section_lines on_tty)
            = map (strip_decoration html) (section_lines on_html))
  /\ map (strip_decoration tty) (section_lines (renderPrecipitationGraph forecast tty))
     = map (strip_decoration html) (section_lines (renderPrecipitationGraph forecast html)).
Proof.
  split; [|split].
  - unfold renderTimeOffsets.
    apply (loop_stripped_alike (List.length (Forecast.hourly forecast))).
    + lia.
    + now apply closed_plain.
    + now apply closed_plain.
    + reflexivity.
  - destruct (temperature_graph_lines forecast tty) as (on_tty & Htty & Ltty).
    destruct (temperature_graph_lines forecast html) as (on_html & Hhtml & Lhtml).
    exists on_tty, on_html. split; [exact Htty|]. split; [exact Hhtml|].
    now rewrite Ltty, Lhtml, !temperature_lines_stripped.
  - rewrite !precipitation_graph_lines. destruct (is_zero _); [reflexivity|].
    rewrite !precipitation_rows_unfold, !map_map.
    apply map_ext. intros i. now rewrite !precipitation_row_stripped.
Qed.

(** ** The composition of the report *)

Section Composition.

Variable forecast : Forecast.t.
Variable format : Format.

Lemma filter_truthy_keeps (s : string) (items : list (option string)) :
  s <> EmptyString -> filter_truthy (Some s :: items) = s :: filter_truthy items.
Proof. destruct s; [congruence | reflexivity]. Qed.

Lemma bold_nonempty (s : string) : bold s format <> EmptyString.
Proof. destruct format; discriminate. Qed.

Lemma time_axis_nonempty : renderTimeOffsets forecast format <> EmptyString.
Proof.
  intros E. pose proof (time_axis_line forecast format) as H.
  rewrite E in H. discriminate H.
Qed.

Lemma temperature_graph_nonempty (graph : string) :
  renderTemperatureGraph forecast format = Ok graph -> graph <> EmptyString.
Proof.
  intros Hgraph ->.
  destruct (temperature_graph_lines forecast format) as (graph & Hgraph' & Hlines).
  rewrite Hgraph in Hgraph'. injection Hgraph' as <-.
  rewrite temperature_rows_unfold in Hlines. discriminate Hlines.
Qed.

Lemma join_cons (x y : string) (l : list string) :
  join nl (x :: y :: l) = x ++ nl ++ join nl (y :: l).
Proof. reflexivity. Qed.

End Composition.

(** X11: the report starts with the opening of the format; then comes,
    only when the forecast has alerts, the bold line "Alerts:  " with the
    titles joined by ", "; then the bold "Now" and "Later" lines and the time
    axis. *)
Theorem report_head (forecast : Forecast.t) (format : Format) (report : string) :
  render forecast format = Ok report ->
  exists rest : string,
    report
    = (match format with html => "<html><pre>" | tty => nl end) ++ nl
      ++ (match Forecast.alerts forecast with
          | [] => EmptyString
          | _ => bold ("Alerts:  " ++ join ", " (Forecast.alerts forecast)) format ++ nl
          end)
      ++ bold ("Now:     " ++ ToString (Math_round (Forecast.feels_like forecast))
               ++ "F, " ++ Forecast.current_summary forecast) format ++ nl
      ++ bold ("Later:   " ++ Forecast.future_summary forecast ++ nl) format ++ nl
      ++ renderTimeOffsets forecast format ++ nl
      ++ rest.
Proof.
  unfold render.
  destruct (renderTemperatureGraph forecast format) as [graph|e] eqn:Hgraph;
    [|discriminate].
  cbn [bind]. intros E.
  match type of E with
  | Ok ?text = Ok report => assert (report = text) as -> by congruence
  end.
  clear E.
  pose proof (temperature_graph_nonempty forecast format graph Hgraph) as Hg.
  pose proof (time_axis_nonempty forecast format) as Ht.
  assert ((match format with html => "<html><pre>" | tty => nl end) <> EmptyString) as Ho
      by (destruct format; discriminate).
  rewrite (filter_truthy_keeps _ _ Ho).
  destruct (Forecast.alerts forecast) as [|a alerts] eqn:Ea.
  - change (filter_truthy (None :: ?l)) with (filter_truthy l).
    rewrite !filter_truthy_keeps by (apply bold_nonempty || assumption).
    eexists. rewrite !join_cons, !append_assoc. reflexivity.
  - rewrite !filter_truthy_keeps by (apply bold_nonempty || assumption).
    eexists. rewrite !join_cons, !append_assoc. reflexivity.
Qed.

(** The report of a forecast without alerts starts with the "Now" line. *)
Lemma report_head_witness :
  exists rest : string,
    match render three_hours tty with Ok report => report | Throw _ => EmptyString end
    = nl ++ nl
      ++ (match Forecast.alerts three_hours with
          | [] => EmptyString
          | _ => bold ("Alerts:  " ++ join ", " (Forecast.alerts three_hours)) tty ++ nl
          end)
      ++ bold ("Now:     " ++ ToString (Math_round (Forecast.feels_like three_hours))
               ++ "F, " ++ Forecast.current_summary three_hours) tty ++ nl
      ++ bold ("Later:   " ++ Forecast.future_summary three_hours ++ nl) tty ++ nl
      ++ renderTimeOffsets three_hours tty ++ nl
      ++ rest.
Proof. apply (report_head three_hours tty). reflexivity. Defined.


(** ** What the normalizer returns *)

Section NormalizerOutput.

Import DarkSky.

Lemma mapM_Ok_inv (f : value -> except value) (l l' : list value) :
  mapM f l = Ok l' -> Forall2 (fun x y => f x = Ok y) l l'.
Proof.
  revert l'; induction l as [|x l IH]; intros l'; simpl.
  - intros [= <-]. constructor.
  - intros H. apply bind_Ok_inv in H as (y & Hy & H).
    apply bind_Ok_inv in H as (ys & Hys & H). injection H as <-.
    constructor; auto.
Qed.

Lemma array_map_Ok_inv (v r : value) (f : value -> except value) :
  array_map v f = Ok r ->
  exists items items' : list value,
    v = Array items /\ r = Array items' /\ Forall2 (fun x y => f x = Ok y) items items'.
Proof.
  destruct v; simpl; try discriminate. intros H.
  apply bind_Ok_inv in H as (items' & Hm & H). injection H as <-.
  exists items, items'. repeat split. now apply mapM_Ok_inv.
Qed.

Lemma transformHour_Ok_inv (h y : value) :
  transformHour h = Ok y -> y = canonical_hour h.
Proof.
  unfold transformHour. intros H.
  apply bind_Ok_inv in H as (t & Ht & H). apply get_Ok_inv in Ht as [_ ->].
  apply bind_Ok_inv in H as (a & Ha & H). apply get_Ok_inv in Ha as [_ ->].
  apply bind_Ok_inv in H as (p & Hp & H). apply get_Ok_inv in Hp as [_ ->].
  now injection H as <-.
Qed.

Lemma slice_first_Ok_inv (v : value) (k : nat) (entries : list value) :
  slice_first v k = Ok (Array entries) ->
  exists items : list value, v = Array items /\ entries = firstn k items.
Proof.
  destruct v; try discriminate; unfold slice_first; intros E.
  exists items. split; [reflexivity | congruence].
Qed.

Lemma lookup_other (key k : string) (v : value) (fields : list (string * value)) :
  k <> key -> lookup key ((k, v) :: fields) = lookup key fields.
Proof. intros H. simpl. apply String.eqb_neq in H. now rewrite H. Qed.

End NormalizerOutput.

(** X13: whatever the payload, a forecast that the normalizer returns has
    the canonical shape: an object with the six fields of the data model in
    which [alerts] is an array and [hourly] is an array of at most 25
    entries, each an object with the three fields of an hourly entry. *)
Theorem transform_output_shape (data forecast : DarkSky.value) :
  DarkSky.transformDarkSkyForecast data = Ok forecast ->
  exists (alerts hourly : list DarkSky.value)
         (temperature feels_like current_summary future_summary : DarkSky.value),
    forecast = DarkSky.Object [("alerts", DarkSky.Array alerts);
                               ("temperature", temperature);
                               ("feels_like", feels_like);
                               ("current_summary", current_summary);
                               ("future_summary", future_summary);
                               ("hourly", DarkSky.Array hourly)]
    /\ (List.length hourly <= 25)%nat
    /\ Forall (fun h => exists t f p : DarkSky.value,
                   h = DarkSky.Object [("temperature", t);
                                       ("feels_like", f);
                                       ("precipitation_probability", p)])
              hourly.
Proof.
  unfold DarkSky.transformDarkSkyForecast. intros H.
  apply bind_Ok_inv in H as (alerts_v & _ & H).
  apply bind_Ok_inv in H as (alerts & Halerts & H).
  do 9 (apply bind_Ok_inv in H as (? & _ & H)).
  apply bind_Ok_inv in H as (series & _ & H).
  apply bind_Ok_inv in H as (first25 & Hslice & H).
  apply bind_Ok_inv in H as (hourly & Hhourly & H).
  apply array_map_Ok_inv in Hhourly as (entries & hours & -> & -> & Hhours).
  assert (exists titles, alerts = DarkSky.Array titles) as [titles ->].
  { destruct (DarkSky.truthy alerts_v).
    - apply bind_Ok_inv in Halerts as (v & _ & Halerts).
      apply array_map_Ok_inv in Halerts as (? & titles & _ & -> & _). eauto.
    - injection Halerts as <-. eauto. }
  match type of H with
  | Ok ?object = Ok forecast => assert (forecast = object) as -> by congruence
  end.
  do 6 eexists. split; [reflexivity|]. split.
  - rewrite <- (Forall2_length Hhours).
    apply slice_first_Ok_inv in Hslice as (items & _ & ->). apply firstn_le_length.
  - clear - Hhours. induction Hhours as [|x y l l' Hxy _ IH]; constructor; [|exact IH].
    apply transformHour_Ok_inv in Hxy. subst y. unfold canonical_hour. eauto.
Qed.

(** The forecast of a payload with 49 hourly entries has 25. *)
Lemma transform_output_shape_witness :
  exists (alerts hourly : list DarkSky.value)
         (temperature feels_like current_summary future_summary : DarkSky.value),
    match DarkSky.transformDarkSkyForecast payload with
    | Ok forecast => forecast
    | Throw _ => DarkSky.Undefined
    end
    = DarkSky.Object [("alerts", DarkSky.Array alerts);
                      ("temperature", temperature);
                      ("feels_like", feels_like);
                      ("current_summary", current_summary);
                      ("future_summary", future_summary);
                      ("hourly", DarkSky.Array hourly)]
    /\ (List.length hourly <= 25)%nat
    /\ Forall (fun h => exists t f p : DarkSky.value,
                   h = DarkSky.Object [("temperature", t);
                                       ("feels_like", f);
                                       ("precipitation_probability", p)])
              hourly.
Proof. apply (transform_output_shape payload). reflexivity. Defined.

(** X14: the normalizer reads the fields [alerts], [currently] and [hourly]
    of the payload and no other: a payload with one more field of another
    name gives the same result, error or forecast. *)
Theorem transform_ignores_other_fields
    (key : string) (v : DarkSky.value) (fields : list (string * DarkSky.value)) :
  key <> "alerts" -> key <> "currently" -> key <> "hourly" ->
  DarkSky.transformDarkSkyForecast (DarkSky.Object ((key, v) :: fields))
  = DarkSky.transformDarkSkyForecast (DarkSky.Object fields).
Proof.
  intros Ha Hc Hh. unfold DarkSky.transformDarkSkyForecast. cbn [DarkSky.get].
  now rewrite !(lookup_other "alerts"), !(lookup_other "currently"),
    !(lookup_other "hourly") by assumption.
Qed.

(** A payload with its latitude and the same payload without it. *)
Lemma transform_ignores_other_fields_witness :
  DarkSky.transformDarkSkyForecast
    (DarkSky.Object [("latitude", DarkSky.Number (Fin (423 # 10)%Q));
                     ("currently", DarkSky.Object [])])
  = DarkSky.transformDarkSkyForecast (DarkSky.Object [("currently", DarkSky.Object [])]).
Proof.
  apply (transform_ignores_other_fields "latitude"); discriminate.
Defined.

(** ** Decoration is transparent and lossless *)

Lemma append_cancel_l (c a b : string) : c ++ a = c ++ b -> a = b.
Proof. induction c as [|x c IH]; simpl; [auto | intros [= H]; auto]. Qed.

Lemma append_cancel_r (c : string) : forall a b : string, a ++ c = b ++ c -> a = b.
Proof.
  induction a as [|x a IH]; intros [|y b] H.
  - reflexivity.
  - apply (f_equal String.length) in H. simpl in H. rewrite length_append in H. lia.
  - apply (f_equal String.length) in H. simpl in H. rewrite length_append in H. lia.
  - simpl in H. injection H as -> H. f_equal. now apply IH.
Qed.

(** X15: stripping sees through the decoration of any text, whatever the
    text holds: a text in bold, in cyan, or in both, nested either way,
    strips to what the text alone strips to. *)
Theorem decoration_transparent (s : string) (f : Format) :
  strip_decoration f (bold s f) = strip_decoration f s
  /\ strip_decoration f (cyan s f) = strip_decoration f s
  /\ strip_decoration f (cyan (bold s f) f) = strip_decoration f s
  /\ strip_decoration f (bold (cyan s f) f) = strip_decoration f s.
Proof.
  assert (forall x, strip_decoration f (bold x f) = strip_decoration f x) as Hb.
  { intros x. rewrite <- (append_nil_r (bold x f)), strip_decoration_bold.
    now rewrite strip_decoration_empty, append_nil_r. }
  assert (forall x, strip_decoration f (cyan x f) = strip_decoration f x) as Hc.
  { intros x. rewrite <- (append_nil_r (cyan x f)), strip_decoration_cyan.
    now rewrite strip_decoration_empty, append_nil_r. }
  repeat split; now rewrite ?Hb, ?Hc, ?Hb.
Qed.

(** X16: decoration loses nothing and confuses nothing: two texts with the
    same bold form, or the same cyan form, are the same text, and no bold
    text is a cyan text. *)
Theorem decoration_injective (s s' : string) (f : Format) :
  (bold s f = bold s' f -> s = s')
  /\ (cyan s f = cyan s' f -> s = s')
  /\ bold s f <> cyan s' f.
Proof.
  split; [|split].
  - rewrite !bold_wrap. intros H. apply append_cancel_l in H.
    now apply append_cancel_r in H.
  - rewrite !cyan_wrap. intros H. apply append_cancel_l in H.
    now apply append_cancel_r in H.
  - destruct f; discriminate.
Qed.

(** ** Readings that are not numbers *)

Lemma max_from_NaN (l : list number) : forall highest : number,
  In NaN l -> max_from highest l = NaN.
Proof.
  induction l as [|x l IH]; intros highest Hin; [destruct Hin|].
  destruct Hin as [-> | Hin]; simpl; [reflexivity|].
  destruct (is_NaN x); [reflexivity | now apply IH].
Qed.

Lemma min_from_NaN (l : list number) : forall lowest : number,
  In NaN l -> min_from lowest l = NaN.
Proof.
  induction l as [|x l IH]; intros lowest Hin; [destruct Hin|].
  destruct Hin as [-> | Hin]; simpl; [reflexivity|].
  destruct (is_NaN x); [reflexivity | now apply IH].
Qed.

Lemma scaleTemperature_NaN (mn t : number) :
  Temperature.scaleTemperature mn NaN t = NaN.
Proof. unfold Temperature.scaleTemperature. now destruct (sub t mn). Qed.

(** X17: one feels-like value that is not a number blanks the temperature
    graph: the maximum and the minimum are NaN, both labels read "NaN",
    every scaled value is NaN, and every column of the seven rows above the
    baseline is blank. *)
Theorem nan_blanks_temperature_graph
    (forecast : Forecast.t) (format : Format) (rows : list string)
    (r j : nat) (row : string) :
  In NaN (Temperature.temps forecast) ->
  Temperature.result forecast format = Ok rows ->
  (r < 7)%nat ->
  nth_error rows r = Some row ->
  (j < List.length (Forecast.hourly forecast))%nat ->
  cell format row j = "  "
  /\ nth_error rows 0
     = Some (bold " H NaNF  " format ++ markers (Temperature.scaledTemps forecast) 7)
  /\ nth_error rows 7 = Some (bold " L NaNF  " format
                              ++ repeat_string "**" (List.length (Forecast.hourly forecast))).
Proof.
  intros Hnan Hres Hr Hrow Hj.
  rewrite temperature_result in Hres.
  assert (rows = (Temperature.rows forecast format ++ [floor_row forecast format])%list)
    as -> by congruence.
  clear Hres.
  assert (Temperature.scaledTemps forecast
          = map (fun _ => NaN) (Temperature.temps forecast)) as Hscaled.
  { unfold Temperature.scaledTemps, Math_max. rewrite (max_from_NaN _ _ Hnan).
    apply map_ext. intros t. apply scaleTemperature_NaN. }
  split; [|split].
  - rewrite nth_error_app1 in Hrow by (rewrite temperature_rows_length; lia).
    destruct (temperature_row_at forecast format r Hr) as (x & lbl & Hx & Hlen & _ & Hstrip).
    assert (x = row) as -> by congruence.
    rewrite (cell_behind_label format _ lbl _ j Hlen Hstrip).
    assert (nth_error (Temperature.scaledTemps forecast) j = Some NaN) as Hz.
    { rewrite Hscaled, nth_error_map.
      destruct (nth_error (Temperature.temps forecast) j) eqn:E; [reflexivity|].
      apply nth_error_None in E. unfold Temperature.temps in E.
      rewrite length_map in E. lia. }
    now rewrite (markers_column _ _ _ _ Hz).
  - rewrite temperature_rows_unfold. unfold Math_max. now rewrite (max_from_NaN _ _ Hnan).
  - rewrite nth_error_app2 by (rewrite temperature_rows_length; lia).
    rewrite temperature_rows_length. unfold floor_row, Math_min.
    now rewrite (min_from_NaN _ _ Hnan).
Qed.

(** Three hours, the second of which has no reading. *)
Lemma nan_blanks_temperature_graph_witness :
  cell tty (nth 6 (Temperature.rows unreadable_hours tty) EmptyString) 2 = "  "
  /\ nth_error (Temperature.rows unreadable_hours tty ++ [floor_row unreadable_hours tty]) 0
     = Some (bold " H NaNF  " tty ++ markers (Temperature.scaledTemps unreadable_hours) 7)
  /\ nth_error (Temperature.rows unreadable_hours tty ++ [floor_row unreadable_hours tty]) 7
     = Some (bold " L NaNF  " tty
             ++ repeat_string "**" (List.length (Forecast.hourly unreadable_hours))).
Proof.
  eapply (nan_blanks_temperature_graph unreadable_hours tty _ 6 2).
  - simpl. auto.
  - reflexivity.
  - lia.
  - reflexivity.
  - simpl. lia.
Defined.

(** X18: one probability that is not a number keeps the precipitation
    graph in the report, with its five rows, and none of them carries a
    label: all have the blank prefix. *)
Theorem nan_unlabels_precipitation_graph (forecast : Forecast.t) (format : Format) :
  In NaN (probabilities forecast) ->
  List.length (section_lines (renderPrecipitationGraph forecast format)) = 5%nat
  /\ Forall blank_prefixed (section_lines (renderPrecipitationGraph forecast format)).
Proof.
  intros Hnan.
  assert (Math_max (probabilities forecast) = NaN) as Hmax
      by (unfold Math_max; now apply max_from_NaN).
  rewrite precipitation_graph_lines, Hmax. cbn [is_zero].
  split; [reflexivity|]. rewrite precipitation_rows_unfold.
  apply Forall_forall. intros row Hrow. apply in_map_iff in Hrow as (i & <- & _).
  rewrite precipitation_row_prefix, Hmax. now eexists.
Qed.

(** Three hours, the second of which has no probability. *)
Lemma nan_unlabels_precipitation_graph_witness :
  List.length (section_lines (renderPrecipitationGraph unreadable_hours tty)) = 5%nat
  /\ Forall blank_prefixed (section_lines (renderPrecipitationGraph unreadable_hours tty)).
Proof. apply (nan_unlabels_precipitation_graph unreadable_hours tty). simpl. auto. Defined.

(** ** The entry point *)

Section EntryPoint.

Import Handler.

Lemma has_prefix_spec (p t : string) :
  has_prefix p t = true <-> exists rest : string, t = p ++ rest.
Proof.
  revert t; induction p as [|a p IH]; intros t; simpl.
  - split; [intros _; now exists t | reflexivity].
  - destruct t as [|b t].
    + split; [discriminate | intros [rest H]; discriminate H].
    + rewrite andb_true_iff, Ascii.eqb_eq, IH. split.
      * intros [-> [rest ->]]. now exists rest.
      * intros [rest [= -> ->]]. split; [reflexivity | now exists rest].
Qed.

Lemma includes_contains (s part : string) :
  includes s part = true <-> contains s part.
Proof.
  induction s as [|c s IH]; cbn [includes]; rewrite orb_true_iff, has_prefix_spec.
  - split.
    + intros [[rest H] | H]; [|discriminate H]. exists EmptyString, rest. exact H.
    + intros ([|b before] & after & H); [left; now exists after | discriminate H].
  - rewrite IH. split.
    + intros [[rest H] | (before & after & ->)].
      * exists EmptyString, rest. exact H.
      * now exists (String c before), after.
    + intros ([|b before] & after & H).
      * left. now exists after.
      * right. injection H as -> ->. now exists before, after.
Qed.

Lemma negotiate_header (header : string) :
  negotiate (Some header) = if includes header "html" then html else tty.
Proof. now destruct header. Qed.

End EntryPoint.

(** X19: the handler answers in HTML exactly when the request has an
    Accept header that contains "html"; without the header, or with any
    other one, it answers in the terminal format. *)
Theorem negotiate_html (accept : option string) :
  Handler.negotiate accept = html
  <-> exists header : string, accept = Some header /\ contains header "html".
Proof.
  destruct accept as [header|].
  - rewrite negotiate_header.
    destruct (Handler.includes header "html") eqn:E.
    + split; [intros _ | reflexivity]. exists header.
      split; [reflexivity | now apply includes_contains].
    + split; [discriminate|]. intros (h & [= <-] & H).
      apply includes_contains in H. congruence.
  - split; [discriminate | intros (h & H & _); discriminate H].
Qed.

(** X20: whatever the request and the forecast source, the handler makes
    exactly two calls on the response, one head and then one body, and the
    status is 200 or 500.  It is 200 exactly when the query has one
    non-empty postal code for which the source has a forecast, and the body
    is then the report of that forecast in the negotiated format; a missing
    or empty code, several codes and a failed lookup each give 500 with
    their message as the body. *)
Theorem handler_response
    (getForecastForZipCode : string -> string + Forecast.t) (message : error -> string)
    (zipcode : Handler.query) (accept : option string) :
  exists (status : nat) (headers : list (string * string)) (body : string),
    Handler.handler getForecastForZipCode message zipcode accept
    = [Handler.writeHead status headers; Handler.end_ body]
    /\ match zipcode with
       | Handler.Absent | Handler.One EmptyString =>
           status = 500%nat /\ body = "Missing zipcode parameter"
       | Handler.Many _ =>
           status = 500%nat /\ body = "Cannot specify multiple zipcodes"
       | Handler.One code =>
           match getForecastForZipCode code with
           | inl rejected => status = 500%nat /\ body = rejected
           | inr forecast =>
               status = 200%nat
               /\ headers = [("Content-Type", "text/html")]
               /\ render forecast (Handler.negotiate accept) = Ok body
           end
       end.
Proof.
  destruct zipcode as [|[|c code]|codes]; try (do 3 eexists; split; [reflexivity | now split]).
  unfold Handler.handler.
  destruct (getForecastForZipCode (String c code)) as [rejected|forecast].
  - do 3 eexists. split; [reflexivity | now split].
  - unfold render, renderTemperatureGraph. rewrite temperature_result. cbn [bind].
    do 3 eexists. split; [reflexivity | now repeat split].
Qed.

(** A browser asking for the known postal code gets the report in HTML; a
    request without a postal code gets the error, whatever it accepts. *)
Example handler_ex :
  Handler.handler one_city no_message (Handler.One "02130") (Some "text/html,application/xhtml+xml")
  = [Handler.writeHead 200 [("Content-Type", "text/html")];
     Handler.end_ match render three_hours html with Ok report => report | Throw _ => EmptyString end]
  /\ Handler.handler one_city no_message Handler.Absent (Some "text/html")
     = [Handler.writeHead 500 []; Handler.end_ "Missing zipcode parameter"]
  /\ Handler.negotiate (Some "*/*") = tty.
Proof. repeat split; reflexivity. Qed.
